(** * pywb.utils.loaders: block loaders, limit reader, signed cookies

    A shallow embedding of [pywb/utils/loaders.py] and the properties of
    its four components: [BlockLoader], [HMACCookieMaker], [LimitReader]
    and [SeekableTextFileReader].

    Python 2 [str] values that are text (identifiers, header values,
    tokens) are [string]; data read from a stream is [bytes], a list of
    [Byte.byte]; Python integers are [Z]; a finite Python float is the
    rational number it denotes, and the sum of two floats is the exact
    sum rounded as binary64 rounds it. *)

From Stdlib Require Import ZArith String Ascii List Lia QArith Qround Qpower Lqa DecimalString DecimalZ.
From stdpp Require Import base gmap strings list.

Open Scope Z_scope.

Abbreviation bytes := (list Byte.byte).

(** Length of a byte string as a Python integer, [len(buff)]. *)
Definition len (b : bytes) : Z := Z.of_nat (length b).

(* ================================================================= *)
(** ** The Python builtins the module relies on *)

Module Py.

(** The exceptions that occur in the module. [IOError] and [OSError]
    carry the file name the failing call was given. *)
Inductive exn : Type :=
  | IOError (filename : string)
  | OSError (filename : string)
  | ValueError
  | TypeError
  | OverflowError
  | OtherError (name : string).

Inductive result (A : Type) : Type :=
  | Ok (a : A)
  | Raise (e : exn).
Arguments Ok {A} a.
Arguments Raise {A} e.

(** Truth value of an integer and of a string: [if n], [if s]. *)
Definition truthy (n : Z) : bool := negb (n =? 0).

Definition truthy_str (s : string) : bool :=
  match s with
  | EmptyString => false
  | String _ _ => true
  end.

(** [str(n)] and [{0}] in [format] for an integer: decimal digits,
    with a leading minus sign for a negative number. *)
Definition str (n : Z) : string := NilZero.string_of_int (Z.to_int n).

(** [s.startswith(p)] *)
Definition startswith (s p : string) : bool := String.prefix p s.

(** [s[n:]] *)
Fixpoint slice_from (n : nat) (s : string) : string :=
  match n, s with
  | O, _ => s
  | S _, EmptyString => EmptyString
  | S n', String _ s' => slice_from n' s'
  end.

(** [s.split(sep, 1)]: at most one split, at the first [sep]. The
    result has one element when [sep] does not occur and two when it
    does. *)
Fixpoint split1 (sep : ascii) (s : string) : list string :=
  match s with
  | EmptyString => [EmptyString]
  | String c s' =>
      if Ascii.eqb c sep then [EmptyString; s']
      else match split1 sep s' with
           | h :: t => String c h :: t
           | [] => [String c EmptyString]
           end
  end.

(** [c in s] for a character [c]. *)
Fixpoint contains (c : ascii) (s : string) : bool :=
  match s with
  | EmptyString => false
  | String c' s' => Ascii.eqb c' c || contains c s'
  end.

(** A Python float: a finite number, taken as the rational it denotes,
    an infinity or a NaN. *)
Inductive pyfloat : Type :=
  | FFinite (q : Q)
  | FInf (negative : bool)
  | FNan.

(** The values a declared content length can take: a missing value, a
    string (a header value), an integer or a float. *)
Inductive value : Type :=
  | VNone
  | VStr (s : string)
  | VInt (n : Z)
  | VFloat (x : pyfloat).

(** C [isspace] in the C locale. *)
Definition is_space (c : ascii) : bool :=
  let n := nat_of_ascii c in
  ((n =? 32) || ((9 <=? n) && (n <=? 13)))%nat.

Definition digit_val (c : ascii) : option Z :=
  let n := nat_of_ascii c in
  if ((48 <=? n) && (n <=? 57))%nat then Some (Z.of_nat n - 48) else None.

Fixpoint lstrip (s : string) : string :=
  match s with
  | String c s' => if is_space c then lstrip s' else s
  | EmptyString => EmptyString
  end.

(** Reads the longest prefix of decimal digits: its value (after
    [acc]), how many digits were read, and the rest of the string. *)
Fixpoint scan_digits (acc : Z) (count : nat) (s : string) : Z * nat * string :=
  match s with
  | String c s' =>
      match digit_val c with
      | Some d => scan_digits (10 * acc + d) (S count) s'
      | None => (acc, count, s)
      end
  | EmptyString => (acc, count, s)
  end.

(** [int(s)] for a string in base 10: optional white space, an
    optional sign, optional white space, at least one digit, optional
    white space; anything else is a [ValueError]. *)
Definition int_of_str (s : string) : option Z :=
  let s := lstrip s in
  let '(sign, s) :=
    match s with
    | String "+"%char r => (1, r)
    | String "-"%char r => (-1, r)
    | _ => (1, s)
    end in
  let s := lstrip s in
  let '(v, count, rest) := scan_digits 0 0 s in
  match count, lstrip rest with
  | S _, EmptyString => Some (sign * v)
  | _, _ => None
  end.

(** [long(x)] for a number with a fractional part: truncation towards
    zero. *)
Definition long (x : Q) : Z := Z.quot (Qnum x) (Z.pos (Qden x)).

(** [int(v)]: a float is truncated towards zero; an infinity is an
    [OverflowError] and a NaN a [ValueError]. *)
Definition int (v : value) : result Z :=
  match v with
  | VNone => Raise TypeError
  | VStr s =>
      match int_of_str s with
      | Some n => Ok n
      | None => Raise ValueError
      end
  | VInt n => Ok n
  | VFloat (FFinite q) => Ok (long q)
  | VFloat (FInf _) => Raise OverflowError
  | VFloat FNan => Raise ValueError
  end.

(** The nearest whole number, a tie going to the even one. *)
Definition round_half_even (x : Q) : Z :=
  let f := Qfloor x in
  match Qcompare (x - inject_Z f) (1 # 2) with
  | Lt => f
  | Eq => if Z.even f then f else f + 1
  | Gt => f + 1
  end.

(** The nearest whole multiple of [2 ^ e], a tie going to the even
    multiple. *)
Definition round_at (e : Z) (x : Q) : Q :=
  (inject_Z (round_half_even (x / Qpower 2 e)) * Qpower 2 e)%Q.

(** For [x > 0], the [k] with [2 ^ k <= x < 2 ^ (k + 1)]. *)
Definition ilog2 (x : Q) : Z :=
  let k := Z.log2 (Qnum x) - Z.log2 (Z.pos (Qden x)) in
  if Qle_bool (Qpower 2 k) x then k else k - 1.

(** For [x > 0], the nearest number with 53 significant bits. *)
Definition round53 (x : Q) : Q := round_at (ilog2 x - 52) x.

(** The float nearest to a number, as binary64 rounds the result of an
    operation: 53 significant bits, ties to even. The exponent range of
    binary64 is left out: a result is never an infinity, and one below
    [2 ^ -1022] in size keeps 53 bits. *)
Definition float_round (x : Q) : Q :=
  match Qnum x with
  | Z0 => 0%Q
  | Zpos _ => round53 x
  | Zneg _ => (- round53 (- x))%Q
  end.

(** [x + y] for two floats. *)
Definition float_add (x y : Q) : Q := float_round (x + y).

End Py.

Import Py.

(* ================================================================= *)
(** ** Streams

    [LimitReader] wraps any object with [read(n)] and [readline(n)]; the
    class below is that capability. A call returns the bytes read and
    the stream after the call. Failures of the underlying device during
    a read are not modelled. *)

Class Stream (S : Type) : Type := {
  stream_read : S -> Z -> bytes * S;
  stream_readline : S -> Z -> bytes * S
}.

(** A Python 2 file object opened with mode ['rb'] over a fixed content:
    [read(size)] returns everything up to the end of the file when
    [size] is negative and at most [size] bytes otherwise; [readline]
    stops after the first newline; [seek] is absolute and refuses a
    negative offset. *)
Module PyFile.

Record t : Type := mk { content : bytes; pos : nat }.

Definition open_content (c : bytes) : t := {| content := c; pos := 0 |}.

Definition rest (f : t) : bytes := drop (pos f) (content f).

Definition advance (f : t) (buff : bytes) : t :=
  {| content := content f; pos := pos f + length buff |}.

Definition read (f : t) (size : Z) : bytes * t :=
  let buff := if size <? 0 then rest f else take (Z.to_nat size) (rest f) in
  (buff, advance f buff).

(** The first line of [b], newline included. *)
Fixpoint line (b : bytes) : bytes :=
  match b with
  | [] => []
  | c :: b' => if Byte.eqb c Byte.x0a then [c] else c :: line b'
  end.

Definition readline (f : t) (size : Z) : bytes * t :=
  let l := line (rest f) in
  let buff := if size <? 0 then l else take (Z.to_nat size) l in
  (buff, advance f buff).

Definition seek (f : t) (offset : Z) : result t :=
  if offset <? 0 then Raise (IOError "")
  else Ok {| content := content f; pos := Z.to_nat offset |}.

End PyFile.

#[export] Instance PyFile_Stream : Stream PyFile.t := {|
  stream_read := PyFile.read;
  stream_readline := PyFile.readline
|}.

(* ================================================================= *)
(** ** Limit Reader *)

Module LimitReader.

Record t (S : Type) : Type := mk { stream : S; limit : Z }.
Arguments mk {S} stream limit.
Arguments stream {S} _.
Arguments limit {S} _.

(** What [wrap_stream] returns: the stream itself or a reader around
    it. *)
Inductive wrapped (S : Type) : Type :=
  | Unwrapped (s : S)
  | Wrapped (r : t S).
Arguments Unwrapped {S} s.
Arguments Wrapped {S} r.

(** The calls a client makes on a reader; [None] is an omitted
    [length] argument. *)
Inductive call : Type :=
  | Read (length : option Z)
  | Readline (length : option Z).

Section Reader.
Context {S : Type} `{Stream S}.

(** [__init__] *)
Definition init (s : S) (lim : Z) : t S :=
  {| stream := s; limit := if truthy lim then lim else 1 |}.

(** [min(length, self.limit) if length else self.limit] *)
Definition clamp (length : option Z) (lim : Z) : Z :=
  match length with
  | Some n => if truthy n then Z.min n lim else lim
  | None => lim
  end.

Definition read (self : t S) (length : option Z) : bytes * t S :=
  let length := clamp length (limit self) in
  let '(buff, s') := stream_read (stream self) length in
  (buff, {| stream := s'; limit := limit self - len buff |}).

Definition readline (self : t S) (length : option Z) : bytes * t S :=
  let length := clamp length (limit self) in
  let '(buff, s') := stream_readline (stream self) length in
  (buff, {| stream := s'; limit := limit self - len buff |}).

Definition step (self : t S) (c : call) : bytes * t S :=
  match c with
  | Read length => read self length
  | Readline length => readline self length
  end.

(** A sequence of calls: the byte strings returned, in order, and
    the reader afterwards. *)
Fixpoint run (self : t S) (cs : list call) : list bytes * t S :=
  match cs with
  | [] => ([], self)
  | c :: cs' =>
      let '(buff, self') := step self c in
      let '(out, final) := run self' cs' in
      (buff :: out, final)
  end.

(** The size the underlying stream is asked for by a call. *)
Definition requested (self : t S) (c : call) : Z :=
  match c with
  | Read length | Readline length => clamp length (limit self)
  end.

(** The underlying stream returns at most the requested number of bytes
    at every call of the sequence [cs] made on [self]. *)
Fixpoint obeys (self : t S) (cs : list call) : Prop :=
  match cs with
  | [] => True
  | c :: cs' =>
      len (fst (step self c)) <= requested self c /\ obeys (snd (step self c)) cs'
  end.

(** [wrap_stream]: the [try] block catches [ValueError] and
    [TypeError] only. *)
Definition wrap_stream (s : S) (content_length : value) : result (wrapped S) :=
  match int content_length with
  | Ok n => if n >? 0 then Ok (Wrapped (init s n)) else Ok (Unwrapped s)
  | Raise ValueError | Raise TypeError => Ok (Unwrapped s)
  | Raise e => Raise e
  end.

End Reader.

(** The [length] argument of a call is omitted or not negative. *)
Definition call_nonneg (c : call) : Prop :=
  match c with
  | Read (Some n) | Readline (Some n) => 0 <= n
  | _ => True
  end.

End LimitReader.

(** Total number of bytes in a list of returned byte strings. *)
Definition total_len (out : list bytes) : Z :=
  fold_right (fun b acc => len b + acc) 0 out.

(* ================================================================= *)
(** ** Signed Cookie-Maker

    [BlockLoader] calls [make()] on whatever cookie maker it was given.
    A maker reads the clock: [now] is the value [time.time()] returns,
    seconds since the epoch with a fractional part, a float. *)

Class CookieMaker (M : Type) : Type := {
  cookie_make : M -> Q -> string -> string
}.

Module HMACCookieMaker.

Record t : Type := mk { key : string; name : string; duration : Q }.

Section Maker.
(** [hmac.new(key, msg).hexdigest()], from the [hmac] library. *)
Variable hmac_hexdigest : string -> string -> string.

(** [str(long(time.time() + self.duration))] *)
Definition expire (self : t) (now : Q) : string :=
  str (long (float_add now (duration self))).

(** The message that is signed. *)
Definition message (self : t) (now : Q) (extra_id : string) : string :=
  if truthy_str extra_id then extra_id +:+ "-" +:+ expire self now
  else expire self now.

Definition make (self : t) (now : Q) (extra_id : string) : string :=
  let expire := expire self now in
  let msg := message self now extra_id in
  let hexdigest := hmac_hexdigest (key self) msg in
  if truthy_str extra_id then
    name self +:+ "-" +:+ extra_id +:+ "=" +:+ expire +:+ "-" +:+ hexdigest
  else
    name self +:+ "=" +:+ expire +:+ "-" +:+ hexdigest.

End Maker.

End HMACCookieMaker.

#[export] Instance HMAC_CookieMaker (hmac_hexdigest : string -> string -> string)
  : CookieMaker HMACCookieMaker.t := {|
  cookie_make := HMACCookieMaker.make hmac_hexdigest
|}.

(* ================================================================= *)
(** ** Block loader *)

(** [is_http] *)
Definition is_http (filename : string) : bool :=
  startswith filename "http://" || startswith filename "https://".

Module BlockLoader.

(** [urllib2.Request(url, headers=headers)] *)
Record Request : Type := mkRequest {
  req_url : string;
  req_headers : gmap string string
}.

(** The calls [load] makes on the platform, in order. *)
Inductive event : Type :=
| OpenFile (path : string)
| ResourceStream (package path : string)
| UrlOpen (request : Request).

(** A computation that calls the platform and may raise. *)
Definition io (A : Type) : Type := list event * result A.

Definition ret {A : Type} (a : A) : io A := ([], Ok a).

Definition raise {A : Type} (e : exn) : io A := ([], Raise e).

Definition bind {A B : Type} (m : io A) (k : A -> io B) : io B :=
  match m with
  | (tr, Ok a) => let '(tr', r) := k a in (tr ++ tr', r)
  | (tr, Raise e) => (tr, Raise e)
  end.

Definition lift {A : Type} (r : result A) : io A := ([], r).

(** [try: m except IOError: handler], the handler being given the
    exception so that a bare [raise] can raise it again. *)
Definition except_IOError {A : Type} (m : io A) (handler : exn -> io A) : io A :=
  match m with
  | (tr, Raise (IOError f)) => let '(tr', r) := handler (IOError f) in (tr ++ tr', r)
  | _ => m
  end.

Notation "'let*' x ':=' m 'in' k" := (bind m (fun x => k))
  (at level 10, x name, m at level 100, k at level 200).

Record t (M : Type) : Type := mk { cookie_maker : option M }.
Arguments mk {M} cookie_maker.
Arguments cookie_maker {M} _.

Section Loader.
Context {M : Type} `{CookieMaker M}.
(** The body stream of an HTTP response. *)
Context {HttpResponse : Type}.
(** The files that can be opened, with their content. *)
Variable fs : gmap string bytes.
(** [pkg_resources.resource_stream] *)
Variable resource_stream : string -> string -> result PyFile.t.
(** [urllib2.urlopen] *)
Variable urlopen : Request -> result HttpResponse.

(** What [load] returns: a file object, a limit reader around one, or
    the response of [urlopen]. *)
Inductive loaded : Type :=
| Raw (afile : PyFile.t)
| Limited (reader : LimitReader.t PyFile.t)
| Response (response : HttpResponse).

(** [open(url, 'rb')] *)
Definition open_rb (url : string) : io PyFile.t :=
  ([OpenFile url],
   match fs !! url with
   | Some c => Ok (PyFile.open_content c)
   | None => Raise (IOError url)
   end).

Definition pkg_resource_stream (package path : string) : io PyFile.t :=
  ([ResourceStream package path], resource_stream package path).

Definition load_file_or_resource (url : string) (offset length : Z) : io loaded :=
  let file_only := startswith url "file://" in
  let url := if file_only then slice_from 7 url else url in
  let* afile :=
    except_IOError (open_rb url) (fun e =>
      if file_only then raise e
      else match split1 "/" url with
           | pkg :: path :: _ => pkg_resource_stream pkg path
           | _ => raise e
           end) in
  let* afile :=
    if offset >? 0 then lift (PyFile.seek afile offset) else ret afile in
  if length >=? 0 then ret (Limited (LimitReader.init afile length))
  else ret (Raw afile).

(** The value of the [Range] header. *)
Definition range_header (offset length : Z) : string :=
  if length >? 0 then "bytes=" +:+ str offset +:+ "-" +:+ str (offset + length - 1)
  else "bytes=" +:+ str offset +:+ "-".

Definition http_request (self : t M) (now : Q) (url : string) (offset length : Z) : Request :=
  let headers : gmap string string := ∅ in
  let headers := <["Range" := range_header offset length]> headers in
  let headers :=
    match cookie_maker self with
    | Some maker => <["Cookie" := cookie_make maker now ""]> headers
    | None => headers
    end in
  {| req_url := url; req_headers := headers |}.

Definition load_http (self : t M) (now : Q) (url : string) (offset length : Z) : io loaded :=
  let request := http_request self now url offset length in
  ([UrlOpen request],
   match urlopen request with
   | Ok response => Ok (Response response)
   | Raise e => Raise e
   end).

Definition load (self : t M) (now : Q) (url : string) (offset length : Z) : io loaded :=
  if is_http url then load_http self now url offset length
  else load_file_or_resource url offset length.

End Loader.

End BlockLoader.

(* ================================================================= *)
(** ** Local text file with known size *)

Module SeekableTextFileReader.

Record t : Type := mk { fh : PyFile.t; filename : string; size : Z }.

(** [os.path.getsize(filename)] *)
Definition os_path_getsize (fs : gmap string bytes) (filename : string) : result Z :=
  match fs !! filename with
  | Some c => Ok (len c)
  | None => Raise (OSError filename)
  end.

(** [__init__] *)
Definition init (fs : gmap string bytes) (filename : string) : result t :=
  match fs !! filename with
  | None => Raise (IOError filename)
  | Some c =>
      match os_path_getsize fs filename with
      | Ok n => Ok {| fh := PyFile.open_content c; filename := filename; size := n |}
      | Raise e => Raise e
      end
  end.

Definition getsize (self : t) : Z := size self.

Definition with_fh (self : t) (f : PyFile.t) : t :=
  {| fh := f; filename := filename self; size := size self |}.

(** [self.fh.read()]: the size argument of a file's [read] defaults to
    a negative number. *)
Definition read (self : t) : bytes * t :=
  let '(buff, f) := PyFile.read (fh self) (-1) in (buff, with_fh self f).

Definition readline (self : t) : bytes * t :=
  let '(buff, f) := PyFile.readline (fh self) (-1) in (buff, with_fh self f).

(** [seek] raises what the file's [seek] raises and then leaves the
    reader as it was. *)
Definition seek (self : t) (offset : Z) : result unit * t :=
  match PyFile.seek (fh self) offset with
  | Ok f => (Ok tt, with_fh self f)
  | Raise e => (Raise e, self)
  end.

Inductive call : Type :=
| Read
| Readline
| Seek (offset : Z).

Definition step (self : t) (c : call) : t :=
  match c with
  | Read => snd (read self)
  | Readline => snd (readline self)
  | Seek offset => snd (seek self offset)
  end.

Definition run (self : t) (cs : list call) : t := fold_left step cs self.

End SeekableTextFileReader.

(* ================================================================= *)
(** ** Concrete data for the examples *)

Definition data (s : string) : bytes := String.list_byte_of_string s.

Definition hello : PyFile.t := PyFile.open_content (data "hello world").

Definition disk : gmap string bytes :=
  {[ "a.txt"%string := data "hello world" ]}.

Definition no_resources (package path : string) : result PyFile.t :=
  Raise (OtherError "ImportError").

(** A loader without cookie maker and a platform without network, for
    the examples. *)
Definition plain_loader : BlockLoader.t HMACCookieMaker.t := BlockLoader.mk None.

Definition no_digest (key msg : string) : string := EmptyString.

Definition no_network (request : BlockLoader.Request) : result PyFile.t :=
  Raise (OtherError "URLError").

Definition load_example (url : string) (offset length : Z) : BlockLoader.io BlockLoader.loaded :=
  BlockLoader.load (H := HMAC_CookieMaker no_digest)
    disk no_resources no_network plain_loader 0%Q url offset length.

(** A loader that signs its requests. *)
Definition signing_loader : BlockLoader.t HMACCookieMaker.t :=
  BlockLoader.mk (Some (HMACCookieMaker.mk "secret" "cookie" 10)).

(** A network that answers every request with the same body. *)
Definition one_response (request : BlockLoader.Request) : result PyFile.t :=
  Ok hello.

(** A stand-in for the keyed digest that shows what is signed. *)
Definition keyed (key msg : string) : string := "<" +:+ key +:+ "|" +:+ msg +:+ ">".

(** A file of two lines, the second without newline. *)
Definition two_lines : gmap string bytes :=
  {[ "index.cdx"%string := [Byte.x61; Byte.x0a; Byte.x62; Byte.x63] ]}.

(* ================================================================= *)
(** ** Clients of the readers *)

(** [n] successive calls of [readline()] on a seekable reader: the
    lines returned, in order, and the reader afterwards. *)
Fixpoint readlines (n : nat) (self : SeekableTextFileReader.t)
    : list bytes * SeekableTextFileReader.t :=
  match n with
  | O => ([], self)
  | S n' =>
      let '(l, self') := SeekableTextFileReader.readline self in
      let '(ls, final) := readlines n' self' in
      (l :: ls, final)
  end.

(* ================================================================= *)
(** * Properties *)

(* ----------------------------------------------------------------- *)
(** *** Limit reader: accounting *)

Section LimitReaderFacts.
Context {S : Type} `{Stream S}.
Implicit Types (r : LimitReader.t S) (c : LimitReader.call) (cs : list LimitReader.call).

Lemma len_nonneg (buff : bytes) : 0 <= len buff.
Proof. unfold len. lia. Qed.

Lemma len_zero_nil (buff : bytes) : len buff <= 0 -> buff = [].
Proof. unfold len. destruct buff; simpl; [done | lia]. Qed.

(** A call returns what the underlying stream returns for the clamped
    size. *)
Lemma read_fst r (length : option Z) :
  fst (LimitReader.read r length)
  = fst (stream_read (LimitReader.stream r)
           (LimitReader.clamp length (LimitReader.limit r))).
Proof. unfold LimitReader.read. destruct (stream_read _ _). reflexivity. Qed.

Lemma readline_fst r (length : option Z) :
  fst (LimitReader.readline r length)
  = fst (stream_readline (LimitReader.stream r)
           (LimitReader.clamp length (LimitReader.limit r))).
Proof. unfold LimitReader.readline. destruct (stream_readline _ _). reflexivity. Qed.

Lemma step_limit r c :
  LimitReader.limit (snd (LimitReader.step r c))
  = LimitReader.limit r - len (fst (LimitReader.step r c)).
Proof.
  destruct c; simpl; unfold LimitReader.read, LimitReader.readline;
    [destruct (stream_read _ _) | destruct (stream_readline _ _)]; reflexivity.
Qed.

Lemma step_limit_le r c :
  LimitReader.limit (snd (LimitReader.step r c)) <= LimitReader.limit r.
Proof. rewrite step_limit. pose proof (len_nonneg (fst (LimitReader.step r c))). lia. Qed.

Lemma run_cons r c cs :
  LimitReader.run r (c :: cs)
  = (fst (LimitReader.step r c) :: fst (LimitReader.run (snd (LimitReader.step r c)) cs),
     snd (LimitReader.run (snd (LimitReader.step r c)) cs)).
Proof.
  simpl. destruct (LimitReader.step r c) as [buff r']. simpl.
  destruct (LimitReader.run r' cs). reflexivity.
Qed.

Lemma run_app r cs1 cs2 :
  LimitReader.run r (cs1 ++ cs2)
  = (fst (LimitReader.run r cs1) ++ fst (LimitReader.run (snd (LimitReader.run r cs1)) cs2),
     snd (LimitReader.run (snd (LimitReader.run r cs1)) cs2)).
Proof.
  revert r. induction cs1 as [|c cs1 IH]; intros r.
  - simpl. destruct (LimitReader.run r cs2). reflexivity.
  - rewrite <- app_comm_cons, !run_cons, IH. reflexivity.
Qed.

Lemma obeys_app r cs1 cs2 :
  LimitReader.obeys r (cs1 ++ cs2) ->
  LimitReader.obeys r cs1 /\ LimitReader.obeys (snd (LimitReader.run r cs1)) cs2.
Proof.
  revert r. induction cs1 as [|c cs1 IH]; intros r.
  - simpl. auto.
  - rewrite <- app_comm_cons, run_cons. cbn [snd LimitReader.obeys].
    intros [Hc Hrest]. destruct (IH _ Hrest) as [H1 H2]. auto.
Qed.

(** Over a whole run the budget drops by the number of bytes handed out. *)
Lemma run_total r cs :
  total_len (fst (LimitReader.run r cs))
  = LimitReader.limit r - LimitReader.limit (snd (LimitReader.run r cs)).
Proof.
  revert r. induction cs as [|c cs IH]; intros r.
  - simpl. lia.
  - rewrite run_cons. simpl. rewrite IH, step_limit. lia.
Qed.

(** A stream cannot return fewer than no bytes, so a run in which it
    returns at most what it is asked for has no call that asks it for
    a negative size: the calls of such a run have a size argument that
    is omitted or not negative, on a budget that is not negative. *)
Lemma obeys_requested_nonneg r c cs :
  LimitReader.obeys r (c :: cs) -> 0 <= LimitReader.requested r c.
Proof.
  intros [Hc _]. pose proof (len_nonneg (fst (LimitReader.step r c))). lia.
Qed.

(** With an empty budget a call asks the stream for nothing, or for a
    negative size. *)
Lemma requested_exhausted r c :
  LimitReader.limit r = 0 -> LimitReader.requested r c <= 0.
Proof.
  intros E. destruct c as [[n|]|[n|]]; simpl; rewrite E;
    try destruct (truthy n); lia.
Qed.

Lemma exhausted_stays r cs :
  LimitReader.limit r = 0 -> LimitReader.obeys r cs ->
  Forall (fun buff => buff = []) (fst (LimitReader.run r cs))
  /\ LimitReader.limit (snd (LimitReader.run r cs)) = 0.
Proof.
  revert r. induction cs as [|c cs IH]; intros r E Hob.
  - simpl. auto.
  - destruct Hob as [Hc Hrest]. rewrite run_cons. simpl.
    pose proof (requested_exhausted r c E) as Hreq.
    assert (Hnil : fst (LimitReader.step r c) = []) by (apply len_zero_nil; lia).
    assert (E' : LimitReader.limit (snd (LimitReader.step r c)) = 0).
    { rewrite step_limit, Hnil, E. reflexivity. }
    destruct (IH _ E' Hrest) as [IH1 IH2]. split; [constructor|]; assumption.
Qed.

End LimitReaderFacts.

(* ----------------------------------------------------------------- *)
(** *** Files as streams *)

Lemma file_read_len (f : PyFile.t) (n : Z) :
  0 <= n -> len (fst (PyFile.read f n)) = Z.min n (len (PyFile.rest f)).
Proof.
  intros Hn. unfold PyFile.read, len. simpl.
  destruct (Z.ltb_spec n 0); [lia|]. rewrite length_take. lia.
Qed.

Lemma file_read_le (f : PyFile.t) (n : Z) :
  0 <= n -> len (fst (PyFile.read f n)) <= n.
Proof. intros Hn. rewrite file_read_len by assumption. lia. Qed.

Lemma file_readline_le (f : PyFile.t) (n : Z) :
  0 <= n -> len (fst (PyFile.readline f n)) <= n.
Proof.
  intros Hn. unfold PyFile.readline, len. simpl.
  destruct (Z.ltb_spec n 0); [lia|]. rewrite length_take. lia.
Qed.

Lemma clamp_bounds (length : option Z) (lim : Z) :
  0 <= lim -> match length with Some n => 0 <= n | None => True end ->
  0 <= LimitReader.clamp length lim <= lim.
Proof.
  intros Hlim Hn. destruct length as [n|]; simpl; [|lia].
  destruct (truthy n); lia.
Qed.

Lemma file_step_le (r : LimitReader.t PyFile.t) (c : LimitReader.call) :
  0 <= LimitReader.limit r -> LimitReader.call_nonneg c ->
  len (fst (LimitReader.step r c)) <= LimitReader.requested r c
  /\ LimitReader.requested r c <= LimitReader.limit r.
Proof.
  intros Hlim Hc.
  destruct c as [length|length];
    cbn [LimitReader.step LimitReader.requested];
    pose proof (clamp_bounds length (LimitReader.limit r) Hlim) as Hb;
    (destruct Hb as [Hlo Hhi]; [destruct length; exact Hc|]).
  - rewrite read_fst.
    pose proof (file_read_le (LimitReader.stream r) _ Hlo) as Hle.
    split; [exact Hle | exact Hhi].
  - rewrite readline_fst.
    pose proof (file_readline_le (LimitReader.stream r) _ Hlo) as Hle.
    split; [exact Hle | exact Hhi].
Qed.

(** A reader over a file with a budget that is not negative, called with
    sizes that are omitted or not negative: the file returns at most
    what it is asked for, and the budget stays non-negative. *)
Lemma file_obeys (r : LimitReader.t PyFile.t) (cs : list LimitReader.call) :
  0 <= LimitReader.limit r -> Forall LimitReader.call_nonneg cs ->
  LimitReader.obeys r cs /\ 0 <= LimitReader.limit (snd (LimitReader.run r cs)).
Proof.
  revert r. induction cs as [|c cs IH]; intros r Hlim Hcs.
  - simpl. auto.
  - inversion Hcs as [|? ? Hc Hrest]; subst.
    destruct (file_step_le r c Hlim Hc) as [H1 H2].
    assert (Hlim' : 0 <= LimitReader.limit (snd (LimitReader.step r c))).
    { rewrite step_limit. lia. }
    destruct (IH _ Hlim' Hrest) as [IH1 IH2].
    rewrite run_cons. simpl. auto.
Qed.

Lemma file_total_le (r : LimitReader.t PyFile.t) (cs : list LimitReader.call) :
  0 <= LimitReader.limit r -> Forall LimitReader.call_nonneg cs ->
  total_len (fst (LimitReader.run r cs)) <= LimitReader.limit r.
Proof.
  intros Hlim Hcs. rewrite run_total.
  destruct (file_obeys r cs Hlim Hcs) as [_ Hfin]. lia.
Qed.

(* ----------------------------------------------------------------- *)
(** *** Limit reader: the budget invariant *)

(** C4. The budget invariant of the claim does not hold of the code
    for a negative size argument. A file returns at most [n] bytes when
    asked for [n >= 0]; yet on a reader with limit 2 over a file of
    eleven bytes, [read(2)] brings the budget to zero and the following
    [read(-1)] asks the file for [min(-1, 0) = -1] bytes: it returns
    the nine bytes left instead of the empty string, and the budget
    becomes -9. *)
Theorem limit_reader_exhausted_read_all :
  let r := LimitReader.init hello 2 in
  (forall (f : PyFile.t) (n : Z), 0 <= n ->
     len (fst (stream_read f n)) <= n /\ len (fst (stream_readline f n)) <= n)
  /\ fst (LimitReader.run r [LimitReader.Read (Some 2)]) = [data "he"]
  /\ LimitReader.limit (snd (LimitReader.run r [LimitReader.Read (Some 2)])) = 0
  /\ fst (LimitReader.run r [LimitReader.Read (Some 2); LimitReader.Read (Some (-1))])
     = [data "he"; data "llo world"]
  /\ LimitReader.limit
       (snd (LimitReader.run r [LimitReader.Read (Some 2); LimitReader.Read (Some (-1))]))
     = -9.
Proof.
  intros r. split.
  - intros f n Hn. split; [apply file_read_le | apply file_readline_le]; exact Hn.
  - repeat split.
Qed.

(* ----------------------------------------------------------------- *)
(** *** Limit reader: a limit of zero, a length of zero *)

(** C3. A reader constructed with limit 0 is the reader constructed with
    limit 1, so the two behave alike on every sequence of calls;
    [read(100)] on it asks the underlying stream for one byte and
    returns what the stream returns, at most one byte when the stream
    returns no more than asked, and exactly one byte over a file that
    has data left. *)
Theorem limit_zero_is_one {S : Type} `{Stream S} (s : S) :
  LimitReader.init s 0 = LimitReader.init s 1
  /\ (forall cs, LimitReader.run (LimitReader.init s 0) cs
                 = LimitReader.run (LimitReader.init s 1) cs)
  /\ LimitReader.requested (LimitReader.init s 0) (LimitReader.Read (Some 100)) = 1
  /\ fst (LimitReader.read (LimitReader.init s 0) (Some 100)) = fst (stream_read s 1)
  /\ (len (fst (stream_read s 1)) <= 1 ->
      len (fst (LimitReader.read (LimitReader.init s 0) (Some 100))) <= 1)
  /\ (forall f : PyFile.t, PyFile.rest f <> [] ->
      len (fst (LimitReader.read (LimitReader.init f 0) (Some 100))) = 1).
Proof.
  assert (E : LimitReader.init s 0 = LimitReader.init s 1) by reflexivity.
  split; [exact E|]. split; [intros cs; rewrite E; reflexivity|].
  split; [reflexivity|]. split; [apply read_fst|].
  split.
  - intros Hle. rewrite read_fst. exact Hle.
  - intros f Hrest. rewrite read_fst. cbn.
    change (len (fst (PyFile.read f 1)) = 1).
    rewrite file_read_len by lia.
    unfold len. destruct (PyFile.rest f); [congruence|]. simpl length. lia.
Qed.

Lemma limit_zero_is_one_witness :
  len (fst (stream_read hello 1)) <= 1
  /\ fst (LimitReader.read (LimitReader.init hello 0) (Some 100)) = data "h"
  /\ len (fst (LimitReader.read (LimitReader.init hello 0) (Some 100))) <= 1.
Proof.
  assert (Hle : len (fst (stream_read hello 1)) <= 1) by (vm_compute; discriminate).
  split; [exact Hle|]. split; [reflexivity|].
  exact (proj1 (proj2 (proj2 (proj2 (proj2 (limit_zero_is_one hello))))) Hle).
Defined.

(** C10. With a positive budget [b], [read(0)] and [readline(0)] are the
    calls with the argument omitted: the underlying stream is asked for
    [b] bytes, not for none, and the call returns what the stream
    returns for [b]; over a file that is [min b (bytes left)] bytes. *)
Theorem read_zero_is_omitted {S : Type} `{Stream S} (s : S) (b : Z) :
  0 < b ->
  let r := LimitReader.mk s b in
  LimitReader.read r (Some 0) = LimitReader.read r None
  /\ LimitReader.readline r (Some 0) = LimitReader.readline r None
  /\ LimitReader.requested r (LimitReader.Read (Some 0)) = b
  /\ LimitReader.requested r (LimitReader.Readline (Some 0)) = b
  /\ fst (LimitReader.read r (Some 0)) = fst (stream_read s b)
  /\ fst (LimitReader.readline r (Some 0)) = fst (stream_readline s b)
  /\ (forall f : PyFile.t,
        len (fst (LimitReader.read (LimitReader.mk f b) (Some 0)))
        = Z.min b (len (PyFile.rest f))).
Proof.
  intros Hpos r.
  split; [reflexivity|]. split; [reflexivity|].
  split; [reflexivity|]. split; [reflexivity|].
  split; [unfold r; rewrite read_fst; reflexivity|].
  split; [unfold r; rewrite readline_fst; reflexivity|].
  intros f. rewrite read_fst. cbn.
  change (len (fst (PyFile.read f b)) = Z.min b (len (PyFile.rest f))).
  apply file_read_len. lia.
Qed.

Lemma read_zero_is_omitted_witness :
  0 < 5
  /\ fst (LimitReader.read (LimitReader.mk hello 5) (Some 0)) = data "hello"
  /\ LimitReader.read (LimitReader.mk hello 5) (Some 0)
     = LimitReader.read (LimitReader.mk hello 5) None.
Proof.
  assert (Hpos : 0 < 5) by lia.
  split; [exact Hpos|]. split; [reflexivity|].
  exact (proj1 (read_zero_is_omitted hello 5 Hpos)).
Defined.

(* ----------------------------------------------------------------- *)
(** *** Limit reader: [wrap_stream] *)

Example wrap_stream_examples :
  LimitReader.wrap_stream hello (VStr "abc") = Ok (LimitReader.Unwrapped hello)
  /\ LimitReader.wrap_stream hello (VStr "0") = Ok (LimitReader.Unwrapped hello)
  /\ LimitReader.wrap_stream hello (VStr "-4") = Ok (LimitReader.Unwrapped hello)
  /\ LimitReader.wrap_stream hello VNone = Ok (LimitReader.Unwrapped hello)
  /\ LimitReader.wrap_stream hello (VStr "50")
     = Ok (LimitReader.Wrapped (LimitReader.mk hello 50))
  /\ LimitReader.wrap_stream hello (VInt 7)
     = Ok (LimitReader.Wrapped (LimitReader.mk hello 7)).
Proof. repeat split. Qed.

(** [int] raises nothing but [ValueError], [TypeError] and
    [OverflowError], the last for an infinite float only. *)
Lemma int_raises (v : value) (e : exn) :
  int v = Raise e ->
  e = ValueError \/ e = TypeError
  \/ (e = OverflowError /\ exists negative, v = VFloat (FInf negative)).
Proof.
  destruct v as [|s|n|[q|negative|]]; simpl.
  - intros [= <-]. auto.
  - destruct (int_of_str s); [discriminate|]. intros [= <-]. auto.
  - discriminate.
  - discriminate.
  - intros [= <-]. right. right. eauto.
  - intros [= <-]. auto.
Qed.

(** C5. [wrap_stream] does raise: for the declared length
    [float('inf')], [int] raises [OverflowError], which the [except]
    clause does not list, so the call raises it instead of returning
    the stream. That is the only way it raises: for every other value
    the result is a reader around the stream with the number [int]
    gives as its limit when that number is greater than zero, and the
    stream itself when it is not or when [int] raises [ValueError] or
    [TypeError]. *)
Theorem wrap_stream_overflow {S : Type} `{Stream S} (s : S) :
  LimitReader.wrap_stream s (VFloat (FInf false)) = Raise OverflowError
  /\ (forall v e, LimitReader.wrap_stream s v = Raise e ->
        e = OverflowError /\ exists negative, v = VFloat (FInf negative))
  /\ (forall v, (forall negative, v <> VFloat (FInf negative)) ->
        exists w, LimitReader.wrap_stream s v = Ok w
          /\ ((exists n, int v = Ok n /\ 0 < n
                         /\ w = LimitReader.Wrapped (LimitReader.mk s n))
              \/ ((forall n, int v = Ok n -> n <= 0) /\ w = LimitReader.Unwrapped s))).
Proof.
  split; [reflexivity|]. split.
  - intros v e. unfold LimitReader.wrap_stream.
    destruct (int v) as [n|e'] eqn:E.
    + destruct (n >? 0); discriminate.
    + destruct (int_raises v e' E) as [->|[->|[-> Hv]]]; try discriminate.
      intros [= <-]. auto.
  - intros v Hv. unfold LimitReader.wrap_stream.
    destruct (int v) as [n|e] eqn:E.
    + destruct (Z.gtb_spec n 0) as [Hpos|Hle].
      * eexists. split; [reflexivity|]. left. exists n. repeat split; [lia|].
        unfold LimitReader.init, truthy.
        destruct (Z.eqb_spec n 0); [lia|]. reflexivity.
      * eexists. split; [reflexivity|]. right. split; [|reflexivity].
        intros m [= <-]. lia.
    + destruct (int_raises v e E) as [->|[->|[_ [negative ->]]]].
      * eexists. split; [reflexivity|]. right. split; [discriminate | reflexivity].
      * eexists. split; [reflexivity|]. right. split; [discriminate | reflexivity].
      * exfalso. exact (Hv negative eq_refl).
Qed.

(* ----------------------------------------------------------------- *)
(** *** Strings *)

Lemma split1_without (sep : ascii) (s : string) :
  contains sep s = false -> split1 sep s = [s].
Proof.
  induction s as [|c s IH]; simpl; [reflexivity|].
  destruct (Ascii.eqb c sep); simpl; [discriminate|].
  intros Hs. rewrite (IH Hs). reflexivity.
Qed.

Lemma split1_with (sep : ascii) (s : string) :
  contains sep s = true ->
  exists a rel, split1 sep s = [a; rel]
    /\ s = a +:+ String sep rel /\ contains sep a = false.
Proof.
  induction s as [|c s IH]; simpl; [discriminate|].
  destruct (Ascii.eqb_spec c sep) as [->|Hne]; simpl.
  - intros _. exists EmptyString, s. auto.
  - intros Hs. destruct (IH Hs) as (a & rel & E & -> & Ha).
    exists (String c a), rel. rewrite E. simpl.
    destruct (Ascii.eqb_spec c sep); [contradiction|]. auto.
Qed.

Lemma slice_from_prefix (p s : string) :
  String.prefix p s = true -> s = p +:+ slice_from (String.length p) s.
Proof.
  revert s. induction p as [|c p IH]; intros s; [reflexivity|].
  destruct s as [|c' s]; simpl; [intros Hp; discriminate Hp|].
  destruct (ascii_dec c c') as [->|]; [|intros Hp; discriminate Hp].
  intros Hp.
  change (String c' s = String c' (p +:+ slice_from (String.length p) s)).
  f_equal. exact (IH _ Hp).
Qed.

(* ----------------------------------------------------------------- *)
(** *** Block loader: the local and packaged backend *)

Section LocalBackend.
Context {HttpResponse : Type}.
Variable fs : gmap string bytes.
Variable resource_stream : string -> string -> result PyFile.t.

Abbreviation local := (BlockLoader.load_file_or_resource (HttpResponse := HttpResponse) fs resource_stream).

(** The seek of a positive offset does not fail. *)
Lemma local_after_open (afile : PyFile.t) (offset : Z) :
  (if offset >? 0 then BlockLoader.lift (PyFile.seek afile offset)
   else BlockLoader.ret afile)
  = BlockLoader.ret
      (if offset >? 0 then PyFile.mk (PyFile.content afile) (Z.to_nat offset)
       else afile).
Proof.
  destruct (Z.gtb_spec offset 0); [|reflexivity].
  unfold PyFile.seek. destruct (Z.ltb_spec offset 0); [lia|]. reflexivity.
Qed.

Lemma local_opened (url : string) (offset length : Z) (c : bytes) :
  let path := if startswith url "file://" then slice_from 7 url else url in
  fs !! path = Some c ->
  local url offset length
  = ([BlockLoader.OpenFile path],
     Ok (let afile := if offset >? 0 then PyFile.mk c (Z.to_nat offset)
                      else PyFile.open_content c in
         if length >=? 0 then BlockLoader.Limited (LimitReader.init afile length)
         else BlockLoader.Raw afile)).
Proof.
  intros path Hc. unfold BlockLoader.load_file_or_resource.
  fold path. unfold BlockLoader.open_rb. rewrite Hc.
  cbn [BlockLoader.except_IOError BlockLoader.bind].
  rewrite (local_after_open _ offset).
  destruct (offset >? 0), (length >=? 0); reflexivity.
Qed.

(** Whatever was opened, a successful load with [length >= 0] returns a
    limit reader over a file, with [length] as its limit, or 1 when
    [length] is 0. *)
Lemma local_limited (url : string) (offset length : Z) tr res :
  0 <= length ->
  local url offset length = (tr, Ok res) ->
  exists afile, res = BlockLoader.Limited
                        (LimitReader.mk afile (if length =? 0 then 1 else length)).
Proof.
  intros Hlen. unfold BlockLoader.load_file_or_resource.
  set (path := if startswith url "file://" then slice_from 7 url else url).
  set (opened := BlockLoader.except_IOError _ _).
  destruct opened as [tr0 [afile|e]]; cbn [BlockLoader.bind]; [|discriminate].
  rewrite (local_after_open _ offset). cbn [BlockLoader.lift BlockLoader.ret].
  assert (Hge : (length >=? 0) = true) by (apply Z.geb_le; lia).
  destruct (offset >? 0); cbn; rewrite Hge; cbn; intros [= _ <-];
    eexists; unfold LimitReader.init, truthy;
    destruct (length =? 0); reflexivity.
Qed.

End LocalBackend.

(** C1, as the code has it. For a path that is not an HTTP URL and a
    length [l >= 0]: a file that can be opened is returned inside a
    limit reader, and a stream returned by [load] yields, over any
    sequence of [read] and [readline] calls whose size argument is
    omitted or not negative, at most [l] bytes in total when [l > 0]
    and at most one byte when [l = 0], however many bytes the file
    holds past the offset. *)
Theorem load_local_bounded {M : Type} `{CookieMaker M} {HttpResponse : Type}
    (fs : gmap string bytes)
    (resource_stream : string -> string -> result PyFile.t)
    (urlopen : BlockLoader.Request -> result HttpResponse)
    (self : BlockLoader.t M) (now : Q) (p : string) (o l : Z) :
  is_http p = false -> 0 <= l ->
  let path := if startswith p "file://" then slice_from 7 p else p in
  (forall c, fs !! path = Some c ->
     exists reader,
       BlockLoader.load fs resource_stream urlopen self now p o l
       = ([BlockLoader.OpenFile path], Ok (BlockLoader.Limited reader)))
  /\ (forall tr res,
        BlockLoader.load fs resource_stream urlopen self now p o l = (tr, Ok res) ->
        exists reader, res = BlockLoader.Limited reader
          /\ forall cs, Forall LimitReader.call_nonneg cs ->
               total_len (fst (LimitReader.run reader cs)) <= (if l =? 0 then 1 else l)).
Proof.
  intros Hlocal Hl path. unfold BlockLoader.load. rewrite Hlocal. split.
  - intros c Hc. rewrite (local_opened fs resource_stream p o l c Hc).
    assert (Hge : (l >=? 0) = true) by (apply Z.geb_le; lia).
    rewrite Hge. eexists. reflexivity.
  - intros tr res Hload.
    destruct (local_limited fs resource_stream p o l tr res Hl Hload) as [afile ->].
    eexists. split; [reflexivity|]. intros cs Hcs.
    apply (file_total_le (LimitReader.mk afile (if l =? 0 then 1 else l)) cs); [|exact Hcs].
    cbn. destruct (Z.eqb_spec l 0); lia.
Qed.

Lemma load_local_bounded_witness :
  is_http "a.txt" = false /\ 0 <= 4
  /\ (exists reader,
        load_example "a.txt" 6 4 = ([BlockLoader.OpenFile "a.txt"], Ok (BlockLoader.Limited reader))
        /\ fst (LimitReader.run reader [LimitReader.Read (Some 3); LimitReader.Read None;
                                         LimitReader.Read (Some 7)])
           = [data "wor"; data "l"; []]).
Proof.
  assert (H1 : is_http "a.txt" = false) by reflexivity.
  assert (H2 : 0 <= 4) by lia.
  split; [exact H1|]. split; [exact H2|].
  destruct (proj1 (load_local_bounded (H := HMAC_CookieMaker no_digest)
                     disk no_resources no_network plain_loader 0%Q "a.txt" 6 4 H1 H2)
              (data "hello world") eq_refl) as [reader Hr].
  exists reader. split; [exact Hr|].
  unfold load_example in *. vm_compute in Hr. injection Hr as <-. reflexivity.
Defined.

(** C1 as stated fails. With [l = 0] the reader returned by [load] hands
    out a byte; and with [l = 2] a [read(-1)] hands out the whole
    file. *)
Lemma load_local_bounded_counterexample :
  (exists reader,
     snd (load_example "a.txt" 0 0) = Ok (BlockLoader.Limited reader)
     /\ fst (LimitReader.run reader [LimitReader.Read (Some 100)]) = [data "h"]
     /\ ~ total_len (fst (LimitReader.run reader [LimitReader.Read (Some 100)])) <= 0)
  /\ (exists reader,
        snd (load_example "a.txt" 0 2) = Ok (BlockLoader.Limited reader)
        /\ fst (LimitReader.run reader [LimitReader.Read (Some (-1))]) = [data "hello world"]
        /\ ~ total_len (fst (LimitReader.run reader [LimitReader.Read (Some (-1))])) <= 2).
Proof.
  split; eexists; (split; [reflexivity|]); (split; [reflexivity|]);
    vm_compute; intros Hle; apply Hle; reflexivity.
Qed.

(** C2. In the local and packaged backend: an identifier that starts
    with [file://] is opened without the prefix and, when the open
    fails, the [IOError] of the open is raised after that one call; any
    other identifier is opened as it is and, when the open fails, an
    identifier without [/] raises the [IOError] of the open, and one
    with [/] is split at its first [/] into a package and a path that
    are handed to [resource_stream], whose stream or exception decides
    the result. *)
Theorem local_open_fallback {HttpResponse : Type}
    (fs : gmap string bytes)
    (resource_stream : string -> string -> result PyFile.t)
    (url : string) (o l : Z) :
  let r := BlockLoader.load_file_or_resource (HttpResponse := HttpResponse)
             fs resource_stream url o l in
  (startswith url "file://" = true ->
     url = "file://" +:+ slice_from 7 url
     /\ (fs !! slice_from 7 url = None ->
         r = ([BlockLoader.OpenFile (slice_from 7 url)],
              Raise (IOError (slice_from 7 url)))))
  /\ (startswith url "file://" = false -> fs !! url = None ->
        (contains "/" url = false ->
           r = ([BlockLoader.OpenFile url], Raise (IOError url)))
        /\ (contains "/" url = true ->
              exists pkg path,
                url = pkg +:+ "/" +:+ path /\ contains "/" pkg = false
                /\ fst r = [BlockLoader.OpenFile url; BlockLoader.ResourceStream pkg path]
                /\ (forall e, resource_stream pkg path = Raise e -> snd r = Raise e)
                /\ (forall afile, resource_stream pkg path = Ok afile ->
                      snd r = Ok (let afile :=
                                    if o >? 0
                                    then PyFile.mk (PyFile.content afile) (Z.to_nat o)
                                    else afile in
                                  if l >=? 0
                                  then BlockLoader.Limited (LimitReader.init afile l)
                                  else BlockLoader.Raw afile)))).
Proof.
  intros r. split.
  - intros Hfile. split; [exact (slice_from_prefix "file://" url Hfile)|].
    intros Hnone. unfold r, BlockLoader.load_file_or_resource, BlockLoader.open_rb.
    rewrite Hfile, Hnone. reflexivity.
  - intros Hbare Hnone. split.
    + intros Hno. unfold r, BlockLoader.load_file_or_resource, BlockLoader.open_rb.
      rewrite Hbare, Hnone, (split1_without _ _ Hno). reflexivity.
    + intros Hyes. destruct (split1_with _ _ Hyes) as (pkg & path & Hsplit & Hurl & Hpkg).
      exists pkg, path. split; [exact Hurl|]. split; [exact Hpkg|].
      unfold r, BlockLoader.load_file_or_resource, BlockLoader.open_rb.
      rewrite Hbare, Hnone. cbn [BlockLoader.except_IOError].
      rewrite Hsplit. unfold BlockLoader.pkg_resource_stream.
      destruct (resource_stream pkg path) as [afile|e] eqn:Hres;
        cbn [BlockLoader.bind app].
      * rewrite (local_after_open afile o). cbn [BlockLoader.ret app].
        split; [destruct (l >=? 0); reflexivity|].
        split; [discriminate|].
        intros afile' [= <-]. destruct (l >=? 0); reflexivity.
      * split; [reflexivity|]. split; [intros e' [= <-]; reflexivity | discriminate].
Qed.

Lemma local_open_fallback_witness :
  startswith "file:///nonexistent" "file://" = true
  /\ BlockLoader.load_file_or_resource (HttpResponse := PyFile.t)
       disk no_resources "file:///nonexistent" 0 (-1)
     = ([BlockLoader.OpenFile "/nonexistent"], Raise (IOError "/nonexistent")).
Proof.
  assert (H1 : startswith "file:///nonexistent" "file://" = true) by reflexivity.
  split; [exact H1|].
  exact (proj2 (proj1 (local_open_fallback (HttpResponse := PyFile.t)
                         disk no_resources "file:///nonexistent" 0 (-1)) H1) eq_refl).
Defined.

Example fallback_examples :
  fst (load_example "mypackage/data/x.txt" 0 (-1))
  = [BlockLoader.OpenFile "mypackage/data/x.txt";
     BlockLoader.ResourceStream "mypackage" "data/x.txt"]
  /\ load_example "x.txt" 0 (-1) = ([BlockLoader.OpenFile "x.txt"], Raise (IOError "x.txt"))
  /\ fst (load_example "file://a.txt" 0 (-1)) = [BlockLoader.OpenFile "a.txt"].
Proof. repeat split. Qed.

(* ----------------------------------------------------------------- *)
(** *** Block loader: the HTTP backend *)

Example range_header_examples :
  BlockLoader.range_header 0 (-1) = "bytes=0-"%string
  /\ BlockLoader.range_header 7 0 = "bytes=7-"%string
  /\ BlockLoader.range_header 100 50 = "bytes=100-149"%string
  /\ BlockLoader.range_header 0 1 = "bytes=0-0"%string.
Proof. repeat split. Qed.

(** [str] writes a number in decimal: reading the digits back gives the
    number. *)
Lemma str_decimal (n : Z) :
  option_map Z.of_int (NilZero.int_of_string (str n)) = Some n.
Proof.
  assert (Hnil : forall d, Z.of_int d = 0 -> Z.to_int n = d -> n = 0).
  { intros d Hd E. rewrite <- (DecimalZ.of_to n), E. exact Hd. }
  unfold str. rewrite NilZero.isi.
  - simpl. rewrite DecimalZ.of_to. reflexivity.
  - intros E. pose proof (Hnil (Decimal.Pos Decimal.Nil) eq_refl E) as ->.
    discriminate E.
  - intros E. pose proof (Hnil (Decimal.Neg Decimal.Nil) eq_refl E) as ->.
    discriminate E.
Qed.

Lemma str_inj (n m : Z) : str n = str m -> n = m.
Proof.
  intros E. pose proof (str_decimal n) as Hn. rewrite E, str_decimal in Hn.
  congruence.
Qed.

(** C6. The request an HTTP load hands to [urlopen] has a [Range] header
    which is [bytes=o-e], with [e] the decimal number [o + l - 1], when
    [l > 0], and [bytes=o-] when [l <= 0]. *)
Theorem http_range_header {M : Type} `{CookieMaker M} {HttpResponse : Type}
    (fs : gmap string bytes)
    (resource_stream : string -> string -> result PyFile.t)
    (urlopen : BlockLoader.Request -> result HttpResponse)
    (self : BlockLoader.t M) (now : Q) (url : string) (o l : Z) :
  is_http url = true ->
  exists request,
    fst (BlockLoader.load fs resource_stream urlopen self now url o l)
    = [BlockLoader.UrlOpen request]
    /\ BlockLoader.req_url request = url
    /\ (0 < l ->
        BlockLoader.req_headers request !! "Range"%string
        = Some ("bytes=" +:+ str o +:+ "-" +:+ str (o + l - 1)))
    /\ (l <= 0 ->
        BlockLoader.req_headers request !! "Range"%string
        = Some ("bytes=" +:+ str o +:+ "-")).
Proof.
  intros Hhttp. unfold BlockLoader.load. rewrite Hhttp.
  eexists. split; [reflexivity|]. split; [reflexivity|].
  assert (Hrange : BlockLoader.req_headers
                     (BlockLoader.http_request self now url o l) !! "Range"%string
                   = Some (BlockLoader.range_header o l)).
  { unfold BlockLoader.http_request. cbn [BlockLoader.req_headers].
    destruct (BlockLoader.cookie_maker self).
    - rewrite lookup_insert_ne by discriminate. apply lookup_insert_eq.
    - apply lookup_insert_eq. }
  rewrite Hrange. unfold BlockLoader.range_header.
  split; intros Hl.
  - destruct (Z.gtb_spec l 0); [reflexivity | lia].
  - destruct (Z.gtb_spec l 0); [lia | reflexivity].
Qed.

Lemma http_range_header_witness :
  is_http "http://example.com/a.warc" = true
  /\ exists request,
       fst (BlockLoader.load (H := HMAC_CookieMaker no_digest)
              disk no_resources no_network signing_loader 0%Q
              "http://example.com/a.warc" 100 50)
       = [BlockLoader.UrlOpen request]
       /\ BlockLoader.req_headers request !! "Range"%string = Some "bytes=100-149"%string.
Proof.
  assert (H1 : is_http "http://example.com/a.warc" = true) by reflexivity.
  split; [exact H1|].
  destruct (http_range_header (H := HMAC_CookieMaker no_digest)
              disk no_resources no_network signing_loader 0%Q
              "http://example.com/a.warc" 100 50 H1)
    as (request & Htrace & _ & Hpos & _).
  exists request. split; [exact Htrace|]. exact (Hpos eq_refl).
Defined.

(** C7. An HTTP load, whatever the length asked for, returns what
    [urlopen] returns for the request, or raises what it raises: the
    result is the response and never a limit reader. *)
Theorem http_not_limited {M : Type} `{CookieMaker M} {HttpResponse : Type}
    (fs : gmap string bytes)
    (resource_stream : string -> string -> result PyFile.t)
    (urlopen : BlockLoader.Request -> result HttpResponse)
    (self : BlockLoader.t M) (now : Q) (url : string) (o l : Z) :
  is_http url = true ->
  let request := BlockLoader.http_request self now url o l in
  let r := BlockLoader.load fs resource_stream urlopen self now url o l in
  fst r = [BlockLoader.UrlOpen request]
  /\ (forall response, urlopen request = Ok response ->
        snd r = Ok (BlockLoader.Response response))
  /\ (forall e, urlopen request = Raise e -> snd r = Raise e)
  /\ (forall reader, snd r <> Ok (BlockLoader.Limited reader))
  /\ (forall afile, snd r <> Ok (BlockLoader.Raw afile)).
Proof.
  intros Hhttp request r. unfold r, BlockLoader.load. rewrite Hhttp.
  unfold BlockLoader.load_http. fold request. cbn [fst snd].
  split; [reflexivity|].
  destruct (urlopen request) as [response|e].
  - split; [intros ? [= <-]; reflexivity|].
    split; [discriminate|]. split; discriminate.
  - split; [discriminate|].
    split; [intros ? [= <-]; reflexivity|]. split; discriminate.
Qed.

Lemma http_not_limited_witness :
  is_http "https://example.com/a.warc" = true
  /\ snd (BlockLoader.load (H := HMAC_CookieMaker no_digest)
            disk no_resources one_response plain_loader 0%Q
            "https://example.com/a.warc" 0 5)
     = Ok (BlockLoader.Response hello).
Proof.
  assert (H1 : is_http "https://example.com/a.warc" = true) by reflexivity.
  split; [exact H1|].
  exact (proj1 (proj2 (http_not_limited (H := HMAC_CookieMaker no_digest)
                         disk no_resources one_response plain_loader 0%Q
                         "https://example.com/a.warc" 0 5 H1)) hello eq_refl).
Defined.

(* ----------------------------------------------------------------- *)
(** *** Signed cookies *)



(** [long] of a number that is not negative is its floor, and [long]
    is odd. *)
Lemma long_nonneg (x : Q) : (0 <= x)%Q -> long x = Qfloor x.
Proof.
  destruct x as [n d]. unfold Qle, long, Qfloor. simpl. intros Hn.
  apply Z.quot_div_nonneg; lia.
Qed.

Lemma long_opp (x : Q) : long (- x) = - long x.
Proof. destruct x as [n d]. unfold long. simpl. apply Z.quot_opp_l. lia. Qed.



Lemma long_le (x y : Q) : (x <= y)%Q -> long x <= long y.
Proof.
  intros Hxy. destruct (Qlt_le_dec x 0) as [Hx|Hx]; destruct (Qlt_le_dec y 0) as [Hy|Hy].
  - assert (Hx' : (0 <= - x)%Q).
    { apply Qlt_le_weak, Qopp_le_compat in Hx. exact Hx. }
    assert (Hy' : (0 <= - y)%Q).
    { apply Qlt_le_weak, Qopp_le_compat in Hy. exact Hy. }
    pose proof (long_opp x) as Ex. pose proof (long_opp y) as Ey.
    rewrite long_nonneg in Ex, Ey by assumption.
    pose proof (Qfloor_resp_le _ _ (Qopp_le_compat _ _ Hxy)). lia.
  - assert (Hx' : (0 <= - x)%Q).
    { apply Qlt_le_weak, Qopp_le_compat in Hx. exact Hx. }
    pose proof (long_opp x) as Ex. rewrite long_nonneg in Ex by assumption.
    rewrite (long_nonneg y) by assumption.
    pose proof (Qfloor_resp_le _ _ Hx') as H0. pose proof (Qfloor_resp_le _ _ Hy) as H1.
    change (Qfloor 0) with 0 in *. lia.
  - exfalso. apply (Qlt_irrefl 0).
    apply Qle_lt_trans with y; [|exact Hy]. apply Qle_trans with x; assumption.
  - rewrite !long_nonneg by assumption. apply Qfloor_resp_le, Hxy.
Qed.

(* ----------------------------------------------------------------- *)
(** *** Floats: rounding to 53 bits *)

Lemma round_half_even_bounds (x : Q) :
  Qfloor x <= round_half_even x <= Qfloor x + 1.
Proof.
  unfold round_half_even. destruct (Qcompare _ _); [destruct (Z.even _)| |]; lia.
Qed.

Lemma round_half_even_le (x y : Q) : (x <= y)%Q -> round_half_even x <= round_half_even y.
Proof.
  intros Hxy. pose proof (Qfloor_resp_le _ _ Hxy) as Hf.
  pose proof (round_half_even_bounds x) as Hx. pose proof (round_half_even_bounds y) as Hy.
  destruct (Z.eq_dec (Qfloor x) (Qfloor y)) as [E|NE]; [|lia].
  unfold round_half_even in *. rewrite <- E in *.
  assert (Hfrac : (x - inject_Z (Qfloor x) <= y - inject_Z (Qfloor x))%Q).
  { apply Qplus_le_compat; [exact Hxy | apply Qle_refl]. }
  destruct (Qcompare_spec (x - inject_Z (Qfloor x)) (1 # 2)) as [Ex|Lx|Gx];
    destruct (Qcompare_spec (y - inject_Z (Qfloor x)) (1 # 2)) as [Ey|Ly|Gy];
    try destruct (Z.even (Qfloor x)); try lia; exfalso; lra.
Qed.

Lemma round_half_even_Z (k : Z) : round_half_even (inject_Z k) = k.
Proof.
  unfold round_half_even. rewrite Qfloor_Z.
  destruct (Qcompare_spec (inject_Z k - inject_Z k) (1 # 2)) as [E|L|G];
    [exfalso; lra | reflexivity | exfalso; lra].
Qed.

Lemma round_half_even_comp (x y : Q) : (x == y)%Q -> round_half_even x = round_half_even y.
Proof.
  intros E. apply Z.le_antisymm; apply round_half_even_le; rewrite E; apply Qle_refl.
Qed.

Lemma pow2_pos (e : Z) : (0 < Qpower 2 e)%Q.
Proof. apply Qpower_0_lt. reflexivity. Qed.

Lemma pow2_plus (a b : Z) : (Qpower 2 (a + b) == Qpower 2 a * Qpower 2 b)%Q.
Proof. apply Qpower_plus. discriminate. Qed.

Lemma pow2_le (a b : Z) : a <= b -> (Qpower 2 a <= Qpower 2 b)%Q.
Proof. intros H. apply Qpower_le_compat_l; [exact H | discriminate]. Qed.

Lemma pow2_Z (a : Z) : 0 <= a -> (Qpower 2 a == inject_Z (2 ^ a))%Q.
Proof. intros H. symmetry. apply (Zpower_Qpower 2 a H). Qed.

Lemma ilog2_spec (x : Q) :
  (0 < x)%Q -> (Qpower 2 (ilog2 x) <= x)%Q /\ (x < Qpower 2 (ilog2 x + 1))%Q.
Proof.
  intros Hx. destruct x as [n d]. unfold ilog2. cbn [Qnum Qden].
  assert (Hn : 0 < n) by (unfold Qlt in Hx; simpl in Hx; lia).
  set (a := Z.log2 n). set (b := Z.log2 (Z.pos d)).
  assert (Ha : 0 <= a) by apply Z.log2_nonneg.
  assert (Hb : 0 <= b) by apply Z.log2_nonneg.
  destruct (Z.log2_spec n Hn) as [Hn1 Hn2]. fold a in Hn1, Hn2.
  destruct (Z.log2_spec (Z.pos d) ltac:(lia)) as [Hd1 Hd2]. fold b in Hd1, Hd2.
  assert (Ex : ((n # d) * inject_Z (Z.pos d) == inject_Z n)%Q).
  { unfold Qeq, Qmult, inject_Z. simpl. lia. }
  assert (Hlow : (Qpower 2 (a - b - 1) <= n # d)%Q).
  { replace (a - b - 1) with (a - (b + 1)) by lia.
    rewrite Qpower_minus by discriminate.
    apply Qle_shift_div_r; [apply pow2_pos|].
    rewrite (pow2_Z a Ha), (pow2_Z (b + 1)) by lia.
    apply Qle_trans with (inject_Z n); [rewrite <- Zle_Qle; exact Hn1|].
    rewrite <- Ex. apply Qmult_le_l; [exact Hx|].
    rewrite <- Zle_Qle. unfold Z.succ in Hd2. lia. }
  assert (Hup : (n # d < Qpower 2 (a - b + 1))%Q).
  { replace (a - b + 1) with ((a + 1) - b) by lia.
    rewrite Qpower_minus by discriminate.
    apply Qlt_shift_div_l; [apply pow2_pos|].
    rewrite (pow2_Z (a + 1)), (pow2_Z b Hb) by lia.
    apply Qle_lt_trans with (inject_Z n); [|rewrite <- Zlt_Qlt; exact Hn2].
    rewrite <- Ex. apply Qmult_le_l; [exact Hx|].
    rewrite <- Zle_Qle. exact Hd1. }
  destruct (Qle_bool (Qpower 2 (a - b)) (n # d)) eqn:E.
  - apply Qle_bool_iff in E. split; assumption.
  - split; [exact Hlow|]. replace (a - b - 1 + 1) with (a - b) by lia.
    apply Qnot_le_lt. intros Hle. apply Qle_bool_iff in Hle. congruence.
Qed.

Lemma ilog2_unique (x : Q) (k : Z) :
  (Qpower 2 k <= x)%Q -> (x < Qpower 2 (k + 1))%Q -> ilog2 x = k.
Proof.
  intros H1 H2.
  assert (Hx : (0 < x)%Q) by (eapply Qlt_le_trans; [apply (pow2_pos k) | exact H1]).
  destruct (ilog2_spec x Hx) as [H3 H4].
  assert (A : (Qpower 2 k < Qpower 2 (ilog2 x + 1))%Q) by (eapply Qle_lt_trans; eassumption).
  assert (B : (Qpower 2 (ilog2 x) < Qpower 2 (k + 1))%Q) by (eapply Qle_lt_trans; eassumption).
  apply Qpower_lt_compat_l_inv in A; [|reflexivity].
  apply Qpower_lt_compat_l_inv in B; [|reflexivity]. lia.
Qed.

Lemma ilog2_le (x y : Q) : (0 < x)%Q -> (x <= y)%Q -> ilog2 x <= ilog2 y.
Proof.
  intros Hx Hxy.
  assert (Hy : (0 < y)%Q) by (eapply Qlt_le_trans; eassumption).
  destruct (ilog2_spec x Hx) as [H1 _]. destruct (ilog2_spec y Hy) as [_ H2].
  assert (A : (Qpower 2 (ilog2 x) < Qpower 2 (ilog2 y + 1))%Q).
  { eapply Qle_lt_trans; [exact H1|]. eapply Qle_lt_trans; eassumption. }
  apply Qpower_lt_compat_l_inv in A; [|reflexivity]. lia.
Qed.

Lemma round_at_le (e : Z) (x y : Q) : (x <= y)%Q -> (round_at e x <= round_at e y)%Q.
Proof.
  intros Hxy. unfold round_at. apply Qmult_le_compat_r; [|apply Qlt_le_weak, pow2_pos].
  rewrite <- Zle_Qle. apply round_half_even_le.
  apply Qmult_le_compat_r; [exact Hxy|].
  apply Qlt_le_weak, Qinv_lt_0_compat, pow2_pos.
Qed.

Lemma round_at_comp (e : Z) (x y : Q) : (x == y)%Q -> (round_at e x == round_at e y)%Q.
Proof.
  intros E. apply Qle_antisym; apply round_at_le; rewrite E; apply Qle_refl.
Qed.

Lemma round_at_fix (e k : Z) :
  (round_at e (inject_Z k * Qpower 2 e) == inject_Z k * Qpower 2 e)%Q.
Proof.
  unfold round_at.
  assert (E : (inject_Z k * Qpower 2 e / Qpower 2 e == inject_Z k)%Q).
  { apply Qdiv_mult_l. apply Qnot_eq_sym, Qlt_not_eq, pow2_pos. }
  rewrite (round_half_even_comp _ _ E), round_half_even_Z. reflexivity.
Qed.

Lemma round53_bounds (x : Q) :
  (0 < x)%Q ->
  (Qpower 2 (ilog2 x) <= round53 x)%Q /\ (round53 x <= Qpower 2 (ilog2 x + 1))%Q.
Proof.
  intros Hx. destruct (ilog2_spec x Hx) as [H1 H2].
  set (e := ilog2 x - 52).
  assert (E1 : (Qpower 2 (ilog2 x) == inject_Z (2 ^ 52) * Qpower 2 e)%Q).
  { rewrite <- (pow2_Z 52) by lia. rewrite <- pow2_plus. unfold e.
    replace (52 + (ilog2 x - 52)) with (ilog2 x) by lia. reflexivity. }
  assert (E2 : (Qpower 2 (ilog2 x + 1) == inject_Z (2 ^ 53) * Qpower 2 e)%Q).
  { rewrite <- (pow2_Z 53) by lia. rewrite <- pow2_plus. unfold e.
    replace (53 + (ilog2 x - 52)) with (ilog2 x + 1) by lia. reflexivity. }
  change (round53 x) with (round_at e x). split.
  - rewrite E1. rewrite <- (round_at_fix e (2 ^ 52)). apply round_at_le.
    rewrite <- E1. exact H1.
  - rewrite E2. rewrite <- (round_at_fix e (2 ^ 53)). apply round_at_le.
    rewrite <- E2. apply Qlt_le_weak, H2.
Qed.

Lemma round53_le (x y : Q) : (0 < x)%Q -> (x <= y)%Q -> (round53 x <= round53 y)%Q.
Proof.
  intros Hx Hxy.
  assert (Hy : (0 < y)%Q) by (eapply Qlt_le_trans; eassumption).
  pose proof (ilog2_le x y Hx Hxy) as Hlog.
  destruct (Z.eq_dec (ilog2 x) (ilog2 y)) as [E|NE].
  - unfold round53. rewrite E. apply (round_at_le (ilog2 y - 52)). exact Hxy.
  - destruct (round53_bounds x Hx) as [_ Hux]. destruct (round53_bounds y Hy) as [Hly _].
    eapply Qle_trans; [exact Hux|]. eapply Qle_trans; [|exact Hly].
    apply pow2_le. lia.
Qed.

Lemma round53_pos (x : Q) : (0 < x)%Q -> (0 < round53 x)%Q.
Proof.
  intros Hx. eapply Qlt_le_trans; [apply (pow2_pos (ilog2 x))|].
  apply round53_bounds, Hx.
Qed.

Lemma float_round_sign (x : Q) :
  ((x < 0)%Q /\ float_round x = (- round53 (- x))%Q)
  \/ ((x == 0)%Q /\ float_round x = 0%Q)
  \/ ((0 < x)%Q /\ float_round x = round53 x).
Proof.
  destruct x as [[|n|n] d]; unfold float_round; cbn [Qnum].
  - right. left. split; reflexivity.
  - right. right. split; reflexivity.
  - left. split; reflexivity.
Qed.

Lemma float_round_le (x y : Q) : (x <= y)%Q -> (float_round x <= float_round y)%Q.
Proof.
  intros Hxy.
  destruct (float_round_sign x) as [[Hx ->]|[[Hx ->]|[Hx ->]]];
    destruct (float_round_sign y) as [[Hy ->]|[[Hy ->]|[Hy ->]]].
  - apply Qopp_le_compat. apply round53_le.
    + apply (Qopp_lt_compat y 0). exact Hy.
    + apply Qopp_le_compat. exact Hxy.
  - apply (Qopp_le_compat 0). apply Qlt_le_weak, round53_pos.
    apply (Qopp_lt_compat x 0). exact Hx.
  - apply Qle_trans with 0%Q.
    + apply (Qopp_le_compat 0). apply Qlt_le_weak, round53_pos.
      apply (Qopp_lt_compat x 0). exact Hx.
    + apply Qlt_le_weak, round53_pos, Hy.
  - exfalso. rewrite Hx in Hxy. apply (Qlt_irrefl y). eapply Qlt_le_trans; eassumption.
  - apply Qle_refl.
  - apply Qlt_le_weak, round53_pos, Hy.
  - exfalso. apply (Qlt_irrefl 0). eapply Qlt_le_trans; [exact Hx|].
    eapply Qle_trans; [exact Hxy|]. apply Qlt_le_weak, Hy.
  - exfalso. rewrite Hy in Hxy. apply (Qlt_irrefl 0). eapply Qlt_le_trans; eassumption.
  - apply round53_le; assumption.
Qed.

(** A whole number below 2^53 is a float. *)
Lemma float_round_Z (k : Z) : 0 <= k < 2 ^ 53 -> (float_round (inject_Z k) == inject_Z k)%Q.
Proof.
  intros Hk. destruct (Z.eq_dec k 0) as [->|Hk0]; [reflexivity|].
  assert (Hpos : (0 < inject_Z k)%Q) by (change (inject_Z 0 < inject_Z k)%Q; rewrite <- Zlt_Qlt; lia).
  destruct (float_round_sign (inject_Z k)) as [[Hx _]|[[Hx _]|[_ ->]]].
  - exfalso. apply (Qlt_irrefl 0). eapply Qlt_trans; eassumption.
  - exfalso. rewrite Hx in Hpos. apply (Qlt_irrefl 0), Hpos.
  - assert (Hlog : ilog2 (inject_Z k) = Z.log2 k).
    { destruct (Z.log2_spec k ltac:(lia)) as [H1 H2].
      apply ilog2_unique.
      - rewrite pow2_Z by apply Z.log2_nonneg. rewrite <- Zle_Qle. exact H1.
      - rewrite pow2_Z by (pose proof (Z.log2_nonneg k); lia).
        rewrite <- Zlt_Qlt. exact H2. }
    unfold round53. rewrite Hlog.
    assert (Hl : Z.log2 k < 53) by (apply Z.log2_lt_pow2; lia).
    set (s := 52 - Z.log2 k).
    assert (Hs : 0 <= s) by (unfold s; lia).
    replace (Z.log2 k - 52) with (- s) by (unfold s; lia).
    assert (E : (inject_Z k == inject_Z (k * 2 ^ s) * Qpower 2 (- s))%Q).
    { rewrite inject_Z_mult, <- (pow2_Z s Hs), <- Qmult_assoc, <- pow2_plus.
      replace (s + - s) with 0 by lia. rewrite Qpower_0_r, Qmult_1_r. reflexivity. }
    change (round_at (- s) (inject_Z k) == inject_Z k)%Q.
    rewrite (round_at_comp _ _ _ E), round_at_fix. symmetry. exact E.
Qed.


Example float_add_examples :
  long (float_add (1 - (1 # 2 ^ 53)) 10) = 11
  /\ long (float_add (3580000001 # 2) (949999999 # 100000000)) = 1790000010
  /\ (float_add (3 # 2) 10 == 23 # 2)%Q.
Proof. repeat split. Qed.

(* ----------------------------------------------------------------- *)
(** *** Signed cookies: what makes two tokens equal *)

(** The clock readings of the counterexample: two floats in second
    2147483640, [2147483640.9999998] and [2147483640.5]. *)
Lemma same_second_readings :
  Qfloor (2147483641 - (1 # 2 ^ 22)) = 2147483640
  /\ Qfloor (2147483640 + (1 # 2)) = 2147483640
  /\ (float_round (2147483641 - (1 # 2 ^ 22)) == 2147483641 - (1 # 2 ^ 22))%Q
  /\ (float_round (2147483640 + (1 # 2)) == 2147483640 + (1 # 2))%Q.
Proof. repeat split. Qed.




(* ----------------------------------------------------------------- *)
(** *** Seekable text file reader *)

Lemma seekable_step_size (r : SeekableTextFileReader.t) (c : SeekableTextFileReader.call) :
  SeekableTextFileReader.getsize (SeekableTextFileReader.step r c)
  = SeekableTextFileReader.getsize r.
Proof.
  destruct c as [| |offset]; simpl.
  - reflexivity.
  - reflexivity.
  - unfold SeekableTextFileReader.seek.
    destruct (PyFile.seek _ _); reflexivity.
Qed.

Lemma seekable_run_size (r : SeekableTextFileReader.t) (cs : list SeekableTextFileReader.call) :
  SeekableTextFileReader.getsize (SeekableTextFileReader.run r cs)
  = SeekableTextFileReader.getsize r.
Proof.
  unfold SeekableTextFileReader.run. revert r.
  induction cs as [|c cs IH]; intros r; simpl; [reflexivity|].
  rewrite IH. apply seekable_step_size.
Qed.

(** C9. A reader opened on a file holds as its size the number of bytes
    the file has when it is opened, and [getsize()] returns that number
    after any sequence of [read], [readline] and [seek] calls. *)
Theorem seekable_size_fixed (fs : gmap string bytes) (filename : string) (c : bytes) :
  fs !! filename = Some c ->
  exists r, SeekableTextFileReader.init fs filename = Ok r
    /\ SeekableTextFileReader.getsize r = len c
    /\ forall cs, SeekableTextFileReader.getsize (SeekableTextFileReader.run r cs) = len c.
Proof.
  intros Hc. unfold SeekableTextFileReader.init, SeekableTextFileReader.os_path_getsize.
  rewrite Hc. eexists. split; [reflexivity|]. split; [reflexivity|].
  intros cs. rewrite seekable_run_size. reflexivity.
Qed.

Lemma seekable_size_fixed_witness :
  disk !! "a.txt"%string = Some (data "hello world")
  /\ exists r, SeekableTextFileReader.init disk "a.txt" = Ok r
       /\ SeekableTextFileReader.getsize
            (SeekableTextFileReader.run r
               [SeekableTextFileReader.Readline; SeekableTextFileReader.Seek 3;
                SeekableTextFileReader.Read; SeekableTextFileReader.Seek (-1)]) = 11.
Proof.
  assert (H1 : disk !! "a.txt"%string = Some (data "hello world")) by reflexivity.
  split; [exact H1|].
  destruct (seekable_size_fixed disk "a.txt" (data "hello world") H1) as (r & Hr & _ & Hrun).
  exists r. split; [exact Hr|]. exact (Hrun _).
Defined.

(* ================================================================= *)
(** * Further properties *)

(* ----------------------------------------------------------------- *)
(** *** Files: what a call returns and where it leaves the file *)

Lemma line_prefix (bs : bytes) : PyFile.line bs = take (length (PyFile.line bs)) bs.
Proof.
  induction bs as [|c bs IH]; simpl; [reflexivity|].
  destruct (Byte.eqb c Byte.x0a); simpl; [reflexivity|].
  rewrite <- IH. reflexivity.
Qed.

Lemma line_nonempty (bs : bytes) : bs <> [] -> PyFile.line bs <> [].
Proof.
  destruct bs as [|c bs]; [congruence|]. simpl.
  destruct (Byte.eqb c Byte.x0a); discriminate.
Qed.

Lemma take_length_take (bs : bytes) (k : nat) :
  take (length (take k bs)) bs = take k bs.
Proof.
  rewrite length_take. destruct (Nat.le_ge_cases k (length bs)) as [Hle|Hge].
  - rewrite Nat.min_l by exact Hle. reflexivity.
  - rewrite Nat.min_r by exact Hge. rewrite firstn_all, take_ge by exact Hge.
    reflexivity.
Qed.

Lemma rest_advance (f : PyFile.t) (k : nat) :
  PyFile.rest (PyFile.advance f (take k (PyFile.rest f)))
  = drop (length (take k (PyFile.rest f))) (PyFile.rest f).
Proof. unfold PyFile.rest, PyFile.advance. simpl. rewrite drop_drop. reflexivity. Qed.

(** Every call on a file returns a prefix of what is left of it and
    leaves the rest. *)
Lemma file_read_prefix (f : PyFile.t) (n : Z) :
  let '(buff, f') := PyFile.read f n in
  buff = take (length buff) (PyFile.rest f)
  /\ PyFile.rest f' = drop (length buff) (PyFile.rest f)
  /\ PyFile.content f' = PyFile.content f.
Proof.
  unfold PyFile.read.
  set (buff := if n <? 0 then PyFile.rest f else take (Z.to_nat n) (PyFile.rest f)).
  assert (Hk : exists k, buff = take k (PyFile.rest f)).
  { unfold buff. destruct (n <? 0); [|eauto].
    exists (length (PyFile.rest f)). symmetry. apply firstn_all. }
  destruct Hk as [k Hk]. rewrite Hk. split; [|split].
  - symmetry. apply take_length_take.
  - apply rest_advance.
  - reflexivity.
Qed.

Lemma file_readline_prefix (f : PyFile.t) (n : Z) :
  let '(buff, f') := PyFile.readline f n in
  buff = take (length buff) (PyFile.rest f)
  /\ PyFile.rest f' = drop (length buff) (PyFile.rest f)
  /\ PyFile.content f' = PyFile.content f.
Proof.
  unfold PyFile.readline.
  set (l := PyFile.line (PyFile.rest f)).
  set (buff := if n <? 0 then l else take (Z.to_nat n) l).
  assert (Hk : exists k, buff = take k (PyFile.rest f)).
  { unfold buff, l. rewrite (line_prefix (PyFile.rest f)).
    destruct (n <? 0); [eauto|]. rewrite take_take. eauto. }
  destruct Hk as [k Hk]. rewrite Hk. split; [|split].
  - symmetry. apply take_length_take.
  - apply rest_advance.
  - reflexivity.
Qed.

Lemma file_step_prefix (r : LimitReader.t PyFile.t) (c : LimitReader.call) :
  let buff := fst (LimitReader.step r c) in
  let f' := LimitReader.stream (snd (LimitReader.step r c)) in
  buff = take (length buff) (PyFile.rest (LimitReader.stream r))
  /\ PyFile.rest f' = drop (length buff) (PyFile.rest (LimitReader.stream r))
  /\ PyFile.content f' = PyFile.content (LimitReader.stream r).
Proof.
  destruct c as [n|n]; cbn [LimitReader.step].
  - pose proof (file_read_prefix (LimitReader.stream r)
                  (LimitReader.clamp n (LimitReader.limit r))) as Hp.
    unfold LimitReader.read. cbn [stream_read PyFile_Stream].
    destruct (PyFile.read _ _) as [buff f']. exact Hp.
  - pose proof (file_readline_prefix (LimitReader.stream r)
                  (LimitReader.clamp n (LimitReader.limit r))) as Hp.
    unfold LimitReader.readline. cbn [stream_readline PyFile_Stream].
    destruct (PyFile.readline _ _) as [buff f']. exact Hp.
Qed.

(* ----------------------------------------------------------------- *)
(** *** Limit reader over a file *)

(** X1. Whatever the calls and their sizes, a limit reader over a file
    hands out the bytes of the file in order, without gap or
    repetition: the byte strings returned, put together, are the first
    bytes of what the file had left, and the file is left right after
    them. *)
Theorem limit_reader_in_order (r : LimitReader.t PyFile.t) (cs : list LimitReader.call) :
  let out := fst (LimitReader.run r cs) in
  let f' := LimitReader.stream (snd (LimitReader.run r cs)) in
  concat out = take (length (concat out)) (PyFile.rest (LimitReader.stream r))
  /\ PyFile.rest f' = drop (length (concat out)) (PyFile.rest (LimitReader.stream r))
  /\ len (concat out) = total_len out.
Proof.
  revert r. induction cs as [|c cs IH]; intros r.
  - simpl. rewrite take_0, drop_0. auto.
  - rewrite run_cons. cbn [fst snd].
    destruct (file_step_prefix r c) as (Hb & Hrest & _).
    destruct (IH (snd (LimitReader.step r c))) as (IH1 & IH2 & IH3).
    set (buff := fst (LimitReader.step r c)) in *.
    set (out := fst (LimitReader.run (snd (LimitReader.step r c)) cs)) in *.
    cbn [concat total_len fold_right]. rewrite length_app.
    split; [|split].
    + rewrite <- take_take_drop, <- Hb, <- Hrest, <- IH1. reflexivity.
    + rewrite IH2, Hrest, drop_drop. reflexivity.
    + fold (total_len out). rewrite <- IH3. unfold len. rewrite length_app. lia.
Qed.

(** X2. With a budget that is not negative, [read(n)] for [n > 0]
    returns the first [min n budget] bytes left in the file (fewer at
    the end of the file), [read()] the first [budget] bytes, and the
    budget goes down by the number of bytes returned. *)
Theorem limit_reader_read_exact (f : PyFile.t) (budget : Z) (length : option Z) :
  0 <= budget ->
  match length with Some n => 0 <= n | None => True end ->
  let asked := match length with
               | Some n => if n =? 0 then budget else Z.min n budget
               | None => budget
               end in
  let '(buff, r') := LimitReader.read (LimitReader.mk f budget) length in
  buff = take (Z.to_nat asked) (PyFile.rest f)
  /\ len buff = Z.min asked (len (PyFile.rest f))
  /\ LimitReader.limit r' = budget - Z.min asked (len (PyFile.rest f))
  /\ 0 <= LimitReader.limit r'.
Proof.
  intros Hb Hn asked.
  assert (Hclamp : LimitReader.clamp length budget = asked).
  { unfold asked. destruct length as [n|]; [|reflexivity]. simpl. unfold truthy.
    destruct (n =? 0); reflexivity. }
  assert (Hasked : 0 <= asked <= budget).
  { rewrite <- Hclamp. apply clamp_bounds; assumption. }
  unfold LimitReader.read. cbn [LimitReader.stream LimitReader.limit stream_read PyFile_Stream].
  rewrite Hclamp. pose proof (file_read_len f asked (proj1 Hasked)) as Hlen.
  unfold PyFile.read in *. cbn [fst] in Hlen.
  destruct (Z.ltb_spec asked 0); [lia|]. cbn [LimitReader.limit].
  rewrite Hlen. repeat split; lia.
Qed.

Lemma limit_reader_read_exact_witness :
  0 <= 4 /\ fst (LimitReader.read (LimitReader.mk hello 4) (Some 100)) = data "hell".
Proof.
  assert (H1 : 0 <= 4) by lia.
  split; [exact H1|].
  pose proof (limit_reader_read_exact hello 4 (Some 100) H1 ltac:(simpl; lia)) as Hx.
  destruct (LimitReader.read (LimitReader.mk hello 4) (Some 100)) as [buff r'].
  destruct Hx as (-> & _). reflexivity.
Defined.

(** X3. A negative size argument goes to the file as it is, whatever the
    budget: [read(n)] with [n < 0] returns all that is left of the file
    and [readline(n)] the whole next line, and the budget is lowered by
    that many bytes, below zero when the file had more than the budget
    left. *)
Theorem limit_reader_negative_size (f : PyFile.t) (budget n : Z) :
  n < 0 ->
  let r := LimitReader.mk f budget in
  fst (LimitReader.read r (Some n)) = PyFile.rest f
  /\ LimitReader.limit (snd (LimitReader.read r (Some n))) = budget - len (PyFile.rest f)
  /\ fst (LimitReader.readline r (Some n)) = PyFile.line (PyFile.rest f)
  /\ (budget < len (PyFile.rest f) ->
      LimitReader.limit (snd (LimitReader.read r (Some n))) < 0).
Proof.
  intros Hn r.
  assert (Hmin : LimitReader.clamp (Some n) budget = Z.min n budget).
  { cbn [LimitReader.clamp]. unfold truthy.
    destruct (Z.eqb_spec n 0); [lia | reflexivity]. }
  assert (Hclamp : (LimitReader.clamp (Some n) budget <? 0) = true).
  { rewrite Hmin. apply Z.ltb_lt. lia. }
  unfold r, LimitReader.read, LimitReader.readline.
  cbn [LimitReader.stream LimitReader.limit stream_read stream_readline PyFile_Stream].
  unfold PyFile.read, PyFile.readline. rewrite Hclamp. cbn [fst snd LimitReader.limit].
  repeat split. lia.
Qed.

Lemma limit_reader_negative_size_witness :
  -1 < 0
  /\ fst (LimitReader.read (LimitReader.mk hello 2) (Some (-1))) = data "hello world"
  /\ LimitReader.limit (snd (LimitReader.read (LimitReader.mk hello 2) (Some (-1)))) = -9.
Proof.
  assert (H1 : -1 < 0) by lia.
  split; [exact H1|].
  destruct (limit_reader_negative_size hello 2 (-1) H1) as (Hread & Hlim & _).
  split; [exact Hread | exact Hlim].
Defined.

(* ----------------------------------------------------------------- *)
(** *** Limit reader over any stream *)

Section WellBehaved.
Context {S : Type} `{Stream S}.
Hypothesis read_le : forall (s : S) (n : Z), 0 <= n -> len (fst (stream_read s n)) <= n.
Hypothesis readline_le :
  forall (s : S) (n : Z), 0 <= n -> len (fst (stream_readline s n)) <= n.

Lemma well_behaved_step (r : LimitReader.t S) (c : LimitReader.call) :
  0 <= LimitReader.limit r -> LimitReader.call_nonneg c ->
  0 <= LimitReader.requested r c <= LimitReader.limit r
  /\ len (fst (LimitReader.step r c)) <= LimitReader.requested r c.
Proof.
  intros Hlim Hc.
  destruct c as [length|length];
    cbn [LimitReader.step LimitReader.requested];
    pose proof (clamp_bounds length (LimitReader.limit r) Hlim) as Hb;
    (destruct Hb as [Hlo Hhi]; [destruct length; exact Hc|]).
  - rewrite read_fst. split; [split; assumption | apply read_le; exact Hlo].
  - rewrite readline_fst. split; [split; assumption | apply readline_le; exact Hlo].
Qed.

Lemma well_behaved_obeys (r : LimitReader.t S) (cs : list LimitReader.call) :
  0 <= LimitReader.limit r -> Forall LimitReader.call_nonneg cs ->
  LimitReader.obeys r cs /\ 0 <= LimitReader.limit (snd (LimitReader.run r cs)).
Proof.
  revert r. induction cs as [|c cs IH]; intros r Hlim Hcs.
  - simpl. auto.
  - inversion Hcs as [|? ? Hc Hrest]; subst.
    destruct (well_behaved_step r c Hlim Hc) as [[H1 H2] H3].
    assert (Hlim' : 0 <= LimitReader.limit (snd (LimitReader.step r c))).
    { rewrite step_limit. lia. }
    destruct (IH _ Hlim' Hrest) as [IH1 IH2].
    rewrite run_cons. simpl. split; [split|]; [lia | exact IH1 | exact IH2].
Qed.

End WellBehaved.

(** X4. Over any stream that returns at most [n] bytes when asked for
    [n >= 0], a reader with a budget that is not negative, called with
    sizes that are omitted or not negative, asks the stream at every
    call for a number of bytes between zero and its first budget less
    the bytes handed out so far, and gets no more than it asks for;
    over the whole sequence it hands out at most its first budget, the
    budget is never negative, and from the moment the budget is zero
    every call returns the empty byte string. *)
Theorem limit_reader_within_budget {S : Type} `{Stream S}
    (r : LimitReader.t S) (cs : list LimitReader.call) :
  (forall (s : S) (n : Z), 0 <= n -> len (fst (stream_read s n)) <= n) ->
  (forall (s : S) (n : Z), 0 <= n -> len (fst (stream_readline s n)) <= n) ->
  0 <= LimitReader.limit r ->
  Forall LimitReader.call_nonneg cs ->
  (forall pre c post, cs = pre ++ c :: post ->
     let before := snd (LimitReader.run r pre) in
     0 <= LimitReader.requested before c
       <= LimitReader.limit r - total_len (fst (LimitReader.run r pre))
     /\ len (fst (LimitReader.step before c)) <= LimitReader.requested before c)
  /\ total_len (fst (LimitReader.run r cs)) <= LimitReader.limit r
  /\ 0 <= LimitReader.limit (snd (LimitReader.run r cs))
  /\ (forall pre post, cs = pre ++ post ->
        LimitReader.limit (snd (LimitReader.run r pre)) = 0 ->
        Forall (fun buff => buff = [])
               (fst (LimitReader.run (snd (LimitReader.run r pre)) post))).
Proof.
  intros Hread Hreadline Hlim Hcs.
  destruct (well_behaved_obeys Hread Hreadline r cs Hlim Hcs) as [Hob Hfin].
  split; [|split; [|split]].
  - intros pre c post ->. cbv zeta.
    apply Forall_app in Hcs as [Hpre Hpost].
    inversion Hpost as [|? ? Hc _]; subst.
    destruct (well_behaved_obeys Hread Hreadline r pre Hlim Hpre) as [_ Hbefore].
    destruct (well_behaved_step Hread Hreadline _ c Hbefore Hc) as [[H1 H2] H3].
    rewrite run_total. split; [lia | exact H3].
  - rewrite run_total. lia.
  - exact Hfin.
  - intros pre post -> Hzero.
    destruct (obeys_app r pre post Hob) as [_ Hpost].
    exact (proj1 (exhausted_stays _ post Hzero Hpost)).
Qed.

Lemma limit_reader_within_budget_witness :
  let r := LimitReader.init hello 4 in
  let cs := [LimitReader.Read (Some 3); LimitReader.Readline None;
             LimitReader.Read (Some 2); LimitReader.Readline (Some 0)] in
  0 <= LimitReader.limit r
  /\ Forall LimitReader.call_nonneg cs
  /\ fst (LimitReader.run r cs) = [data "hel"; data "l"; []; []]
  /\ total_len (fst (LimitReader.run r cs)) <= LimitReader.limit r.
Proof.
  intros r cs.
  assert (H1 : 0 <= LimitReader.limit r) by (vm_compute; discriminate).
  assert (H2 : Forall LimitReader.call_nonneg cs) by (repeat constructor; simpl; lia).
  split; [exact H1|]. split; [exact H2|]. split; [reflexivity|].
  exact (proj1 (proj2 (limit_reader_within_budget r cs
                         (fun f n Hn => file_read_le f n Hn)
                         (fun f n Hn => file_readline_le f n Hn) H1 H2))).
Defined.

(** X5. A reader that [wrap_stream] puts around a file for a declared
    length has the number [int] gives, which is positive, as its budget,
    and hands out at most that many bytes over any calls whose size is
    omitted or not negative. *)
Theorem wrap_stream_bounded (f : PyFile.t) (v : value) (r : LimitReader.t PyFile.t) :
  LimitReader.wrap_stream f v = Ok (LimitReader.Wrapped r) ->
  exists n, int v = Ok n /\ 0 < n /\ r = LimitReader.mk f n
    /\ forall cs, Forall LimitReader.call_nonneg cs ->
         total_len (fst (LimitReader.run r cs)) <= n.
Proof.
  unfold LimitReader.wrap_stream. destruct (int v) as [n|e] eqn:E.
  - destruct (Z.gtb_spec n 0) as [Hpos|Hle]; [|discriminate].
    intros [= <-]. exists n. split; [reflexivity|]. split; [lia|].
    assert (Hr : LimitReader.init f n = LimitReader.mk f n).
    { unfold LimitReader.init, truthy. destruct (Z.eqb_spec n 0); [lia | reflexivity]. }
    rewrite Hr. split; [reflexivity|]. intros cs Hcs.
    apply (file_total_le (LimitReader.mk f n) cs); [simpl; lia | exact Hcs].
  - destruct e; discriminate.
Qed.

Lemma wrap_stream_bounded_witness :
  LimitReader.wrap_stream hello (VStr " 5 ") = Ok (LimitReader.Wrapped (LimitReader.mk hello 5))
  /\ total_len (fst (LimitReader.run (LimitReader.mk hello 5)
                       [LimitReader.Read (Some 3); LimitReader.Read None])) <= 5.
Proof.
  assert (H1 : LimitReader.wrap_stream hello (VStr " 5 ")
               = Ok (LimitReader.Wrapped (LimitReader.mk hello 5))) by reflexivity.
  split; [exact H1|].
  destruct (wrap_stream_bounded hello (VStr " 5 ") _ H1) as (n & Hn & _ & _ & Hbound).
  injection Hn as <-. apply Hbound. repeat constructor; simpl; lia.
Defined.

(* ----------------------------------------------------------------- *)
(** *** Block loader: what a local load reads *)

(** X6. A local load of a file that can be opened, with a negative
    length, returns the file object itself, placed at [offset] when
    [offset > 0] and at the start otherwise: reading it to the end
    gives the bytes of the file from [offset] on, none when [offset]
    is past the end. *)
Theorem load_unbounded_content {HttpResponse : Type}
    (fs : gmap string bytes)
    (resource_stream : string -> string -> result PyFile.t)
    (url : string) (o l : Z) (c : bytes) :
  let path := if startswith url "file://" then slice_from 7 url else url in
  fs !! path = Some c -> l < 0 ->
  exists afile,
    BlockLoader.load_file_or_resource (HttpResponse := HttpResponse)
      fs resource_stream url o l
    = ([BlockLoader.OpenFile path], Ok (BlockLoader.Raw afile))
    /\ fst (PyFile.read afile (-1)) = drop (Z.to_nat o) c.
Proof.
  intros path Hc Hl.
  rewrite (local_opened fs resource_stream url o l c Hc).
  destruct (Z.geb_spec l 0) as [|_]; [lia|].
  eexists. split; [reflexivity|].
  destruct (Z.gtb_spec o 0) as [Ho|Ho]; unfold PyFile.read, PyFile.rest; simpl.
  - reflexivity.
  - replace (Z.to_nat o) with 0%nat by lia. reflexivity.
Qed.

Lemma load_unbounded_content_witness :
  disk !! "a.txt"%string = Some (data "hello world") /\ -1 < 0
  /\ exists afile,
       BlockLoader.load_file_or_resource (HttpResponse := PyFile.t)
         disk no_resources "file://a.txt" 6 (-1)
       = ([BlockLoader.OpenFile "a.txt"], Ok (BlockLoader.Raw afile))
       /\ fst (PyFile.read afile (-1)) = data "world".
Proof.
  assert (H1 : disk !! "a.txt"%string = Some (data "hello world")) by reflexivity.
  assert (H2 : -1 < 0) by lia.
  split; [exact H1|]. split; [exact H2|].
  exact (load_unbounded_content (HttpResponse := PyFile.t)
           disk no_resources "file://a.txt" 6 (-1) (data "hello world") H1 H2).
Defined.

(** X7. A local load of a file that can be opened, with a length
    [l >= 0], returns a limit reader whose [read()] gives the block
    asked for: the [l] bytes of the file from [offset] on (one byte
    when [l] is 0), fewer when the file ends before. After it the
    budget is what the end of the file left unread. *)
Theorem load_bounded_content {HttpResponse : Type}
    (fs : gmap string bytes)
    (resource_stream : string -> string -> result PyFile.t)
    (url : string) (o l : Z) (c : bytes) :
  let path := if startswith url "file://" then slice_from 7 url else url in
  let budget := if l =? 0 then 1 else l in
  fs !! path = Some c -> 0 <= l ->
  exists reader,
    BlockLoader.load_file_or_resource (HttpResponse := HttpResponse)
      fs resource_stream url o l
    = ([BlockLoader.OpenFile path], Ok (BlockLoader.Limited reader))
    /\ fst (LimitReader.read reader None)
       = take (Z.to_nat budget) (drop (Z.to_nat o) c)
    /\ LimitReader.limit (snd (LimitReader.read reader None))
       = budget - Z.min budget (len (drop (Z.to_nat o) c)).
Proof.
  intros path budget Hc Hl.
  rewrite (local_opened fs resource_stream url o l c Hc).
  destruct (Z.geb_spec l 0) as [_|]; [|lia].
  set (afile := if o >? 0 then PyFile.mk c (Z.to_nat o) else PyFile.open_content c).
  assert (Hrest : PyFile.rest afile = drop (Z.to_nat o) c).
  { unfold afile. destruct (Z.gtb_spec o 0) as [Ho|Ho]; unfold PyFile.rest; simpl.
    - reflexivity.
    - replace (Z.to_nat o) with 0%nat by lia. reflexivity. }
  assert (Hinit : LimitReader.init afile l = LimitReader.mk afile budget).
  { unfold LimitReader.init, truthy, budget. destruct (l =? 0); reflexivity. }
  exists (LimitReader.init afile l). split; [reflexivity|]. rewrite Hinit.
  assert (Hb : 0 <= budget) by (unfold budget; destruct (Z.eqb_spec l 0); lia).
  pose proof (limit_reader_read_exact afile budget None Hb I) as Hx.
  cbv zeta in Hx.
  destruct (LimitReader.read (LimitReader.mk afile budget) None) as [buff r'].
  destruct Hx as (-> & _ & Hlim & _). rewrite Hrest in *. auto.
Qed.

Lemma load_bounded_content_witness :
  disk !! "a.txt"%string = Some (data "hello world") /\ 0 <= 3
  /\ exists reader,
       BlockLoader.load_file_or_resource (HttpResponse := PyFile.t)
         disk no_resources "a.txt" 4 3
       = ([BlockLoader.OpenFile "a.txt"], Ok (BlockLoader.Limited reader))
       /\ fst (LimitReader.read reader None) = data "o w".
Proof.
  assert (H1 : disk !! "a.txt"%string = Some (data "hello world")) by reflexivity.
  assert (H2 : 0 <= 3) by lia.
  split; [exact H1|]. split; [exact H2|].
  destruct (load_bounded_content (HttpResponse := PyFile.t)
              disk no_resources "a.txt" 4 3 (data "hello world") H1 H2)
    as (reader & Hload & Hread & _).
  exists reader. split; [exact Hload | exact Hread].
Defined.

(* ----------------------------------------------------------------- *)
(** *** Block loader: which platform calls a load makes *)

Lemma prefix_append (p rest : string) : String.prefix p (p +:+ rest) = true.
Proof.
  induction p as [|c p IH]; [destruct rest; reflexivity|].
  change (String.prefix (String c p) (String c (p +:+ rest)) = true).
  simpl. destruct (ascii_dec c c); [exact IH | contradiction].
Qed.

Lemma is_http_iff (url : string) :
  is_http url = true
  <-> (exists rest, url = "http://" +:+ rest) \/ (exists rest, url = "https://" +:+ rest).
Proof.
  unfold is_http, startswith. rewrite orb_true_iff. split.
  - intros [Hp|Hp]; [left|right]; eexists; exact (slice_from_prefix _ _ Hp).
  - intros [[rest ->]|[rest ->]]; [left|right]; apply prefix_append.
Qed.

(** The calls of a local load: one [open], followed by one
    [resource_stream] only for a bare path that could not be opened
    and has a [/]. *)
Lemma local_trace_cases {HttpResponse : Type}
    (fs : gmap string bytes)
    (resource_stream : string -> string -> result PyFile.t)
    (url : string) (o l : Z) :
  let path := if startswith url "file://" then slice_from 7 url else url in
  let tr := fst (BlockLoader.load_file_or_resource (HttpResponse := HttpResponse)
                   fs resource_stream url o l) in
  tr = [BlockLoader.OpenFile path]
  \/ (startswith url "file://" = false /\ fs !! url = None
      /\ exists pkg rel, url = pkg +:+ "/" +:+ rel /\ contains "/" pkg = false
           /\ tr = [BlockLoader.OpenFile url; BlockLoader.ResourceStream pkg rel]).
Proof.
  intros path tr.
  destruct (fs !! path) as [c|] eqn:Hc.
  - left. unfold tr. fold path.
    rewrite (local_opened fs resource_stream url o l c Hc). reflexivity.
  - unfold tr, BlockLoader.load_file_or_resource, BlockLoader.open_rb. fold path.
    rewrite Hc. subst path.
    destruct (startswith url "file://") eqn:Hfile; [left; reflexivity|].
    destruct (contains "/" url) eqn:Hslash.
    + right. split; [reflexivity|]. split; [exact Hc|].
      destruct (split1_with _ _ Hslash) as (pkg & rel & Hsplit & Hurl & Hpkg).
      exists pkg, rel. split; [exact Hurl|]. split; [exact Hpkg|].
      cbn [BlockLoader.except_IOError]. rewrite Hsplit.
      unfold BlockLoader.pkg_resource_stream.
      destruct (resource_stream pkg rel) as [afile|e]; cbn [BlockLoader.bind app];
        [|reflexivity].
      rewrite (local_after_open afile o). cbn [BlockLoader.ret app].
      destruct (l >=? 0); reflexivity.
    + left. cbn [BlockLoader.except_IOError].
      rewrite (split1_without _ _ Hslash). reflexivity.
Qed.

(** X8. [load] goes to the network exactly for the identifiers that
    start with [http://] or [https://]: for these its only platform call
    is [urlopen], on a request for the identifier itself; for all
    others its first call is [open] on the identifier without a
    leading [file://], and [urlopen] is never called. *)
Theorem dispatch_by_prefix {M : Type} `{CookieMaker M} {HttpResponse : Type}
    (fs : gmap string bytes)
    (resource_stream : string -> string -> result PyFile.t)
    (urlopen : BlockLoader.Request -> result HttpResponse)
    (self : BlockLoader.t M) (now : Q) (url : string) (o l : Z) :
  let tr := fst (BlockLoader.load fs resource_stream urlopen self now url o l) in
  let has_scheme := (exists rest, url = "http://" +:+ rest)
                    \/ (exists rest, url = "https://" +:+ rest) in
  (has_scheme ->
     exists request, tr = [BlockLoader.UrlOpen request]
                     /\ BlockLoader.req_url request = url)
  /\ (~ has_scheme ->
        (exists more,
           tr = BlockLoader.OpenFile
                  (if startswith url "file://" then slice_from 7 url else url) :: more)
        /\ forall request, ~ In (BlockLoader.UrlOpen request) tr).
Proof.
  intros tr has_scheme. unfold tr, BlockLoader.load. split.
  - intros Hs. apply is_http_iff in Hs. rewrite Hs.
    eexists. split; reflexivity.
  - intros Hs. destruct (is_http url) eqn:E.
    { exfalso. apply Hs. apply is_http_iff. exact E. }
    destruct (local_trace_cases (HttpResponse := HttpResponse)
                fs resource_stream url o l)
      as [->|(Hbare & _ & pkg & rel & _ & _ & ->)].
    + split; [eexists; reflexivity|]. intros request [Hin|[]]. discriminate Hin.
    + rewrite Hbare. split; [eexists; reflexivity|].
      intros request [Hin|[Hin|[]]]; discriminate Hin.
Qed.

Lemma dispatch_by_prefix_witness :
  (exists request,
     fst (BlockLoader.load (H := HMAC_CookieMaker no_digest)
            disk no_resources no_network plain_loader 0%Q "https://host/x" 0 (-1))
     = [BlockLoader.UrlOpen request] /\ BlockLoader.req_url request = "https://host/x"%string)
  /\ forall request,
       ~ In (BlockLoader.UrlOpen request)
            (fst (BlockLoader.load (H := HMAC_CookieMaker no_digest)
                    disk no_resources no_network plain_loader 0%Q "ftp://host/x" 0 (-1))).
Proof.
  split.
  - apply (proj1 (dispatch_by_prefix (H := HMAC_CookieMaker no_digest)
                    disk no_resources no_network plain_loader 0%Q "https://host/x" 0 (-1))).
    right. exists "host/x"%string. reflexivity.
  - apply (proj2 (dispatch_by_prefix (H := HMAC_CookieMaker no_digest)
                    disk no_resources no_network plain_loader 0%Q "ftp://host/x" 0 (-1))).
    intros [[rest Hr]|[rest Hr]]; discriminate Hr.
Defined.

(** X9. A local load asks for a packaged resource only as a fallback:
    when it does, the identifier has no [file://] in front, could not
    be opened as a file, and is the package, a [/] and the resource
    path, the package being the part before the first [/]. *)
Theorem resource_only_after_failed_open {HttpResponse : Type}
    (fs : gmap string bytes)
    (resource_stream : string -> string -> result PyFile.t)
    (url : string) (o l : Z) (pkg rel : string) :
  In (BlockLoader.ResourceStream pkg rel)
     (fst (BlockLoader.load_file_or_resource (HttpResponse := HttpResponse)
             fs resource_stream url o l)) ->
  startswith url "file://" = false /\ fs !! url = None
  /\ url = pkg +:+ "/" +:+ rel /\ contains "/" pkg = false.
Proof.
  destruct (local_trace_cases (HttpResponse := HttpResponse) fs resource_stream url o l)
    as [->|(Hbare & Hnone & pkg' & rel' & Hurl & Hpkg & ->)].
  - intros [Hin|[]]. discriminate Hin.
  - intros [Hin|[Hin|[]]]; [discriminate Hin|].
    injection Hin as <- <-. auto.
Qed.

Lemma resource_only_after_failed_open_witness :
  In (BlockLoader.ResourceStream "pkg" "static/x.css")
     (fst (BlockLoader.load_file_or_resource (HttpResponse := PyFile.t)
             disk no_resources "pkg/static/x.css" 0 (-1)))
  /\ disk !! "pkg/static/x.css"%string = None.
Proof.
  assert (H1 : In (BlockLoader.ResourceStream "pkg" "static/x.css")
                 (fst (BlockLoader.load_file_or_resource (HttpResponse := PyFile.t)
                         disk no_resources "pkg/static/x.css" 0 (-1)))).
  { right. left. reflexivity. }
  split; [exact H1|].
  exact (proj1 (proj2 (resource_only_after_failed_open (HttpResponse := PyFile.t)
                         disk no_resources "pkg/static/x.css" 0 (-1)
                         "pkg" "static/x.css" H1))).
Defined.

(** X10. The request of an HTTP load carries a [Cookie] header exactly
    when the loader has a cookie maker: its value is then the maker's
    token for the clock reading of the call, with no secondary id; and
    the request has no header besides [Range] and [Cookie]. *)
Theorem http_cookie_header {M : Type} `{CookieMaker M} {HttpResponse : Type}
    (fs : gmap string bytes)
    (resource_stream : string -> string -> result PyFile.t)
    (urlopen : BlockLoader.Request -> result HttpResponse)
    (self : BlockLoader.t M) (now : Q) (url : string) (o l : Z) :
  is_http url = true ->
  exists request,
    fst (BlockLoader.load fs resource_stream urlopen self now url o l)
    = [BlockLoader.UrlOpen request]
    /\ BlockLoader.req_headers request !! "Cookie"%string
       = option_map (fun maker => cookie_make maker now "") (BlockLoader.cookie_maker self)
    /\ forall name, is_Some (BlockLoader.req_headers request !! name) ->
         name = "Range"%string \/ name = "Cookie"%string.
Proof.
  intros Hhttp. unfold BlockLoader.load. rewrite Hhttp.
  eexists. split; [reflexivity|].
  unfold BlockLoader.http_request. cbn [BlockLoader.req_headers].
  destruct (BlockLoader.cookie_maker self) as [maker|]; cbn [option_map].
  - split; [apply lookup_insert_eq|].
    intros name [v Hv].
    apply lookup_insert_Some in Hv as [[<- _]|[_ Hv]]; [auto|].
    apply lookup_insert_Some in Hv as [[<- _]|[_ Hv]]; [auto|].
    rewrite lookup_empty in Hv. discriminate Hv.
  - split; [rewrite lookup_insert_ne by discriminate; apply lookup_empty|].
    intros name [v Hv].
    apply lookup_insert_Some in Hv as [[<- _]|[_ Hv]]; [auto|].
    rewrite lookup_empty in Hv. discriminate Hv.
Qed.

Lemma http_cookie_header_witness :
  is_http "http://host/x" = true
  /\ exists request,
       fst (BlockLoader.load (H := HMAC_CookieMaker keyed)
              disk no_resources no_network signing_loader (5 # 2) "http://host/x" 0 (-1))
       = [BlockLoader.UrlOpen request]
       /\ BlockLoader.req_headers request !! "Cookie"%string
          = Some "cookie=12-<secret|12>"%string.
Proof.
  assert (H1 : is_http "http://host/x" = true) by reflexivity.
  split; [exact H1|].
  destruct (http_cookie_header (H := HMAC_CookieMaker keyed)
              disk no_resources no_network signing_loader (5 # 2) "http://host/x" 0 (-1) H1)
    as (request & Htrace & Hcookie & _).
  exists request. split; [exact Htrace | exact Hcookie].
Defined.

(* ----------------------------------------------------------------- *)
(** *** Signed cookies: the expiry *)

(** X11. The expiry written into a token is a whole number of seconds
    [e], in decimal, that lies between [now + duration] rounded down
    and [now + duration] rounded up, for a sum that is not negative and
    below [2 ^ 53]: the sum being rounded to a float before it is cut,
    [e] can be the whole second just above [now + duration], and is
    never further from it. *)
Theorem cookie_expiry_window (self : HMACCookieMaker.t) (now : Q) :
  (0 <= now + HMACCookieMaker.duration self)%Q ->
  (now + HMACCookieMaker.duration self <= inject_Z (2 ^ 53 - 1))%Q ->
  exists e : Z,
    HMACCookieMaker.expire self now = str e
    /\ option_map Z.of_int (NilZero.int_of_string (HMACCookieMaker.expire self now)) = Some e
    /\ Qfloor (now + HMACCookieMaker.duration self) <= e
       <= Qceiling (now + HMACCookieMaker.duration self).
Proof.
  intros Hpos Hmax. set (x := (now + HMACCookieMaker.duration self)%Q) in *.
  exists (long (float_round x)).
  unfold HMACCookieMaker.expire, float_add. fold x.
  split; [reflexivity|]. split; [apply str_decimal|].
  assert (Hf0 : 0 <= Qfloor x) by (apply (Qfloor_resp_le 0 x), Hpos).
  assert (Hf1 : Qfloor x <= 2 ^ 53 - 1).
  { rewrite <- (Qfloor_Z (2 ^ 53 - 1)). apply Qfloor_resp_le, Hmax. }
  assert (Hc0 : 0 <= Qceiling x) by (apply (Qceiling_resp_le 0 x), Hpos).
  assert (Hc1 : Qceiling x <= 2 ^ 53 - 1).
  { rewrite <- (Qceiling_Z (2 ^ 53 - 1)). apply Qceiling_resp_le, Hmax. }
  pose proof (float_round_le _ _ (Qfloor_le x)) as Hlow.
  pose proof (float_round_le _ _ (Qle_ceiling x)) as Hup.
  rewrite float_round_Z in Hlow by lia. rewrite float_round_Z in Hup by lia.
  assert (Hr : (0 <= float_round x)%Q).
  { eapply Qle_trans; [|exact Hlow]. change (inject_Z 0 <= inject_Z (Qfloor x))%Q.
    rewrite <- Zle_Qle. exact Hf0. }
  rewrite long_nonneg by exact Hr.
  apply Qfloor_resp_le in Hlow, Hup. rewrite Qfloor_Z in Hlow, Hup. lia.
Qed.

Lemma cookie_expiry_window_witness :
  let self := HMACCookieMaker.mk "secret" "cookie" 10 in
  (0 <= (1 - (1 # 2 ^ 53)) + HMACCookieMaker.duration self)%Q
  /\ ((1 - (1 # 2 ^ 53)) + HMACCookieMaker.duration self <= inject_Z (2 ^ 53 - 1))%Q
  /\ HMACCookieMaker.expire self (1 - (1 # 2 ^ 53)) = "11"%string
  /\ exists e : Z, HMACCookieMaker.expire self (1 - (1 # 2 ^ 53)) = str e
       /\ Qfloor ((1 - (1 # 2 ^ 53)) + HMACCookieMaker.duration self) <= e
          <= Qceiling ((1 - (1 # 2 ^ 53)) + HMACCookieMaker.duration self).
Proof.
  intros self.
  assert (H1 : (0 <= (1 - (1 # 2 ^ 53)) + HMACCookieMaker.duration self)%Q)
    by (vm_compute; discriminate).
  assert (H2 : ((1 - (1 # 2 ^ 53)) + HMACCookieMaker.duration self
                <= inject_Z (2 ^ 53 - 1))%Q) by (vm_compute; discriminate).
  split; [exact H1|]. split; [exact H2|]. split; [reflexivity|].
  destruct (cookie_expiry_window self (1 - (1 # 2 ^ 53)) H1 H2) as (e & He & _ & Hwin).
  exists e. split; [exact He | exact Hwin].
Defined.

(** X12. The expiry does not go back in time: of two clock readings the
    later one gives an expiry that is not smaller, for the same maker
    and for a positive as for a negative duration. *)
Theorem cookie_expiry_monotone (self : HMACCookieMaker.t) (t1 t2 : Q) :
  (t1 <= t2)%Q ->
  exists e1 e2 : Z,
    HMACCookieMaker.expire self t1 = str e1
    /\ HMACCookieMaker.expire self t2 = str e2
    /\ e1 <= e2.
Proof.
  intros Ht. eexists _, _. split; [reflexivity|]. split; [reflexivity|].
  apply long_le, float_round_le.
  apply Qplus_le_compat; [exact Ht | apply Qle_refl].
Qed.

Lemma cookie_expiry_monotone_witness :
  let self := HMACCookieMaker.mk "secret" "cookie" 10 in
  ((1 # 2) <= (9 # 4))%Q
  /\ (HMACCookieMaker.expire self (1 # 2), HMACCookieMaker.expire self (9 # 4))
     = ("10", "12")%string
  /\ exists e1 e2 : Z,
       HMACCookieMaker.expire self (1 # 2) = str e1
       /\ HMACCookieMaker.expire self (9 # 4) = str e2 /\ e1 <= e2.
Proof.
  intros self.
  assert (H1 : ((1 # 2) <= (9 # 4))%Q) by (vm_compute; discriminate).
  split; [exact H1|]. split; [reflexivity|].
  exact (cookie_expiry_monotone self (1 # 2) (9 # 4) H1).
Defined.

(* ----------------------------------------------------------------- *)
(** *** Seekable text file reader: positions and lines *)

Lemma seekable_step_content (r : SeekableTextFileReader.t) (c : SeekableTextFileReader.call) :
  PyFile.content (SeekableTextFileReader.fh (SeekableTextFileReader.step r c))
  = PyFile.content (SeekableTextFileReader.fh r).
Proof.
  destruct c as [| |offset]; simpl; [reflexivity | reflexivity |].
  unfold SeekableTextFileReader.seek, PyFile.seek.
  destruct (offset <? 0); reflexivity.
Qed.

Lemma seekable_run_content (r : SeekableTextFileReader.t) (cs : list SeekableTextFileReader.call) :
  PyFile.content (SeekableTextFileReader.fh (SeekableTextFileReader.run r cs))
  = PyFile.content (SeekableTextFileReader.fh r).
Proof.
  unfold SeekableTextFileReader.run. revert r.
  induction cs as [|c cs IH]; intros r; simpl; [reflexivity|].
  rewrite IH. apply seekable_step_content.
Qed.

(** X13. On a reader opened on a file, after any calls, [seek(o)] with
    [o >= 0] succeeds and the next [read()] returns the bytes of the
    file from [o] to its end, none when [o] is past the end; [seek] of
    a negative offset raises [IOError] and leaves the reader where it
    was. *)
Theorem seekable_seek_read (fs : gmap string bytes) (filename : string) (c : bytes)
    (cs : list SeekableTextFileReader.call) (o : Z) :
  fs !! filename = Some c ->
  exists r, SeekableTextFileReader.init fs filename = Ok r
    /\ let before := SeekableTextFileReader.run r cs in
       (0 <= o ->
          fst (SeekableTextFileReader.seek before o) = Ok tt
          /\ fst (SeekableTextFileReader.read (snd (SeekableTextFileReader.seek before o)))
             = drop (Z.to_nat o) c)
       /\ (o < 0 ->
             SeekableTextFileReader.seek before o = (Raise (IOError ""), before)).
Proof.
  intros Hc. unfold SeekableTextFileReader.init, SeekableTextFileReader.os_path_getsize.
  rewrite Hc. eexists. split; [reflexivity|]. cbv zeta.
  set (r := SeekableTextFileReader.mk _ _ _).
  pose proof (seekable_run_content r cs) as Hcontent. simpl in Hcontent.
  unfold SeekableTextFileReader.seek, PyFile.seek. split.
  - intros Ho. destruct (Z.ltb_spec o 0); [lia|]. split; [reflexivity|].
    unfold SeekableTextFileReader.read, PyFile.read, PyFile.rest. simpl.
    rewrite Hcontent. reflexivity.
  - intros Ho. destruct (Z.ltb_spec o 0); [reflexivity | lia].
Qed.

Lemma seekable_seek_read_witness :
  disk !! "a.txt"%string = Some (data "hello world")
  /\ exists r, SeekableTextFileReader.init disk "a.txt" = Ok r
       /\ fst (SeekableTextFileReader.read
                 (snd (SeekableTextFileReader.seek
                         (SeekableTextFileReader.run r [SeekableTextFileReader.Read]) 6)))
          = data "world".
Proof.
  assert (H1 : disk !! "a.txt"%string = Some (data "hello world")) by reflexivity.
  split; [exact H1|].
  destruct (seekable_seek_read disk "a.txt" (data "hello world")
              [SeekableTextFileReader.Read] 6 H1) as (r & Hr & Hseek & _).
  exists r. split; [exact Hr|]. exact (proj2 (Hseek ltac:(lia))).
Defined.

Lemma readlines_rest (n : nat) (r : SeekableTextFileReader.t) :
  (length (PyFile.rest (SeekableTextFileReader.fh r)) <= n)%nat ->
  concat (fst (readlines n r)) = PyFile.rest (SeekableTextFileReader.fh r)
  /\ Forall (fun l => l <> [] -> forall k, l !! k = Some Byte.x0a -> S k = length l)
            (fst (readlines n r)).
Proof.
  revert r. induction n as [|n IH]; intros r Hn.
  - simpl. split; [|constructor].
    destruct (PyFile.rest (SeekableTextFileReader.fh r)); [reflexivity | simpl in Hn; lia].
  - cbn [readlines]. unfold SeekableTextFileReader.readline.
    pose proof (file_readline_prefix (SeekableTextFileReader.fh r) (-1)) as Hp.
    destruct (PyFile.readline (SeekableTextFileReader.fh r) (-1)) as [l f'] eqn:El.
    destruct Hp as (Hl & Hrest & _).
    assert (Hline : l = PyFile.line (PyFile.rest (SeekableTextFileReader.fh r))).
    { unfold PyFile.readline in El. simpl in El. injection El as <- _. reflexivity. }
    set (r' := SeekableTextFileReader.with_fh r f').
    assert (Hn' : (length (PyFile.rest (SeekableTextFileReader.fh r')) <= n)%nat).
    { unfold r'. simpl. rewrite Hrest, length_drop.
      destruct (PyFile.rest (SeekableTextFileReader.fh r)) as [|c bs] eqn:Er.
      - simpl. lia.
      - assert (l <> []) by (rewrite Hline; apply line_nonempty; discriminate).
        destruct l; [congruence|]. simpl in *. lia. }
    destruct (IH r' Hn') as [IH1 IH2].
    destruct (readlines n r') as [ls final]. cbn [fst concat] in *.
    split.
    + rewrite IH1. unfold r'. simpl. rewrite Hrest.
      rewrite Hl at 1. apply take_drop.
    + constructor; [|exact IH2]. intros _ k Hk. rewrite Hline in *.
      clear - Hk. revert k Hk.
      induction (PyFile.rest (SeekableTextFileReader.fh r)) as [|c bs IHbs]; intros k Hk.
      * destruct k; discriminate Hk.
      * simpl in *. destruct (Byte.eqb c Byte.x0a) eqn:Ec.
        -- destruct k as [|k]; [reflexivity|]. destruct k; discriminate Hk.
        -- destruct k as [|k]; simpl in Hk.
           ++ injection Hk as ->. discriminate Ec.
           ++ simpl. f_equal. apply IHbs. exact Hk.
Qed.

(** X14. Reading a freshly opened file line by line loses nothing:
    with at least as many [readline()] calls as the file has bytes,
    the lines returned, put together, are the content of the file,
    and a newline occurs in a line only as its last byte. *)
Theorem readlines_whole_file (fs : gmap string bytes) (filename : string) (c : bytes)
    (n : nat) :
  fs !! filename = Some c -> (length c <= n)%nat ->
  exists r, SeekableTextFileReader.init fs filename = Ok r
    /\ concat (fst (readlines n r)) = c
    /\ Forall (fun l => l <> [] -> forall k, l !! k = Some Byte.x0a -> S k = length l)
              (fst (readlines n r)).
Proof.
  intros Hc Hn. unfold SeekableTextFileReader.init, SeekableTextFileReader.os_path_getsize.
  rewrite Hc. eexists. split; [reflexivity|].
  apply (readlines_rest n). simpl. exact Hn.
Qed.

Lemma readlines_whole_file_witness :
  two_lines !! "index.cdx"%string = Some [Byte.x61; Byte.x0a; Byte.x62; Byte.x63]
  /\ (4 <= 4)%nat
  /\ exists r, SeekableTextFileReader.init two_lines "index.cdx" = Ok r
       /\ fst (readlines 4 r) = [[Byte.x61; Byte.x0a]; [Byte.x62; Byte.x63]; []; []]
       /\ concat (fst (readlines 4 r)) = [Byte.x61; Byte.x0a; Byte.x62; Byte.x63].
Proof.
  assert (H1 : two_lines !! "index.cdx"%string
               = Some [Byte.x61; Byte.x0a; Byte.x62; Byte.x63]) by reflexivity.
  assert (H2 : (4 <= 4)%nat) by lia.
  split; [exact H1|]. split; [exact H2|].
  destruct (readlines_whole_file two_lines "index.cdx" _ 4 H1 H2) as (r & Hr & Hcat & _).
  exists r. split; [exact Hr|]. split; [|exact Hcat].
  vm_compute in Hr. injection Hr as <-. reflexivity.
Defined.

(* ----------------------------------------------------------------- *)
(** *** Limit reader over a file: lines *)

(** X15. With a budget that is not negative, [readline(n)] for [n > 0]
    returns the first [min n budget] bytes of the next line of the
    file, [readline()] its first [budget] bytes, the line ending with
    its newline or with the file; the budget goes down by the number of
    bytes returned and is not negative afterwards. *)
Theorem limit_reader_readline_exact (f : PyFile.t) (budget : Z) (length : option Z) :
  0 <= budget ->
  match length with Some n => 0 <= n | None => True end ->
  let asked := match length with
               | Some n => if n =? 0 then budget else Z.min n budget
               | None => budget
               end in
  let '(buff, r') := LimitReader.readline (LimitReader.mk f budget) length in
  buff = take (Z.to_nat asked) (PyFile.line (PyFile.rest f))
  /\ len buff <= asked
  /\ LimitReader.limit r' = budget - len buff
  /\ 0 <= LimitReader.limit r'.
Proof.
  intros Hb Hn asked.
  assert (Hclamp : LimitReader.clamp length budget = asked).
  { unfold asked. destruct length as [n|]; [|reflexivity]. simpl. unfold truthy.
    destruct (n =? 0); reflexivity. }
  assert (Hasked : 0 <= asked <= budget).
  { rewrite <- Hclamp. apply clamp_bounds; assumption. }
  unfold LimitReader.readline.
  cbn [LimitReader.stream LimitReader.limit stream_readline PyFile_Stream].
  rewrite Hclamp. pose proof (file_readline_le f asked (proj1 Hasked)) as Hlen.
  unfold PyFile.readline in *. cbn [fst] in Hlen.
  destruct (Z.ltb_spec asked 0); [lia|]. cbn [LimitReader.limit].
  repeat split; lia.
Qed.

Lemma limit_reader_readline_exact_witness :
  0 <= 3
  /\ fst (LimitReader.readline
            (LimitReader.mk (PyFile.open_content [Byte.x61; Byte.x0a; Byte.x62; Byte.x63]) 3)
            None)
     = [Byte.x61; Byte.x0a].
Proof.
  assert (H1 : 0 <= 3) by lia.
  split; [exact H1|].
  pose proof (limit_reader_readline_exact
                (PyFile.open_content [Byte.x61; Byte.x0a; Byte.x62; Byte.x63]) 3 None H1 I) as Hx.
  destruct (LimitReader.readline _ None) as [buff r'].
  destruct Hx as (-> & _). reflexivity.
Defined.

(* ----------------------------------------------------------------- *)
(** *** Block loader: the [file://] prefix *)

(** X16. For a path that can be opened and does not itself start with
    [file://], loading it with [file://] in front is loading it
    without: the same single [open] and the same stream. *)
Theorem file_scheme_same_stream {HttpResponse : Type}
    (fs : gmap string bytes)
    (resource_stream : string -> string -> result PyFile.t)
    (path : string) (o l : Z) (c : bytes) :
  fs !! path = Some c -> startswith path "file://" = false ->
  BlockLoader.load_file_or_resource (HttpResponse := HttpResponse)
    fs resource_stream ("file://" +:+ path) o l
  = BlockLoader.load_file_or_resource (HttpResponse := HttpResponse)
      fs resource_stream path o l.
Proof.
  intros Hc Hbare.
  assert (Hpre : startswith ("file://" +:+ path) "file://" = true)
    by apply prefix_append.
  assert (Hc1 : fs !! (if startswith ("file://" +:+ path) "file://"
                       then slice_from 7 ("file://" +:+ path)
                       else "file://" +:+ path) = Some c).
  { rewrite Hpre. exact Hc. }
  assert (Hc2 : fs !! (if startswith path "file://" then slice_from 7 path else path)
                = Some c).
  { rewrite Hbare. exact Hc. }
  rewrite (local_opened fs resource_stream _ o l c Hc1).
  rewrite (local_opened fs resource_stream _ o l c Hc2).
  rewrite Hpre, Hbare. reflexivity.
Qed.

Lemma file_scheme_same_stream_witness :
  disk !! "a.txt"%string = Some (data "hello world")
  /\ startswith "a.txt" "file://" = false
  /\ BlockLoader.load_file_or_resource (HttpResponse := PyFile.t)
       disk no_resources "file://a.txt" 2 5
     = BlockLoader.load_file_or_resource (HttpResponse := PyFile.t)
         disk no_resources "a.txt" 2 5.
Proof.
  assert (H1 : disk !! "a.txt"%string = Some (data "hello world")) by reflexivity.
  assert (H2 : startswith "a.txt" "file://" = false) by reflexivity.
  split; [exact H1|]. split; [exact H2|].
  exact (file_scheme_same_stream (HttpResponse := PyFile.t)
           disk no_resources "a.txt" 2 5 (data "hello world") H1 H2).
Defined.
